(** * AMR risk assessment: catalog, scoring engine, session store and router

    A shallow embedding of
    - [shared/assessment.ts]  (question catalog, weights, maxima, risk bands),
    - [server/scoring.ts]     (the scoring engine and the answer validator),
    - the Drizzle schema and [server/db.ts] (the three assessment tables),
    - the tRPC assessment router (session procedures),
    - the users table with [upsertUser] and [getUserByOpenId],
    - the answer-set helper of the scoring tests,
    followed by the properties proved about them.

    Numbers.  Option point values are integer literals in the catalog and
    the [points] column is an [int]; they are modelled by [Z].  Everything
    the engine computes with [/] and [*] on them is an IEEE 754 binary64
    value and is modelled by the kernel's primitive [float].  The sums of
    points per category are computed in [Z]: on the point values of the
    catalog (0 to 3, twelve answers) the binary64 additions of the loop are
    exact.  [binary64Sums] is that loop in binary64, and
    [binary64Sums_exact] proves that the two agree there; on point values
    from 2^53 on, which no catalog answer has, the program's sums would
    round and the [Z] sums do not follow them.  The values [Math.round]
    returns are integers and are kept in [Z] as well. *)

From Stdlib Require Import ZArith List String Ascii Bool Lia Permutation.
From Stdlib Require Import Floats DecimalString DecimalPos DecimalZ.
Import ListNotations.

Local Open Scope string_scope.
Local Open Scope Z_scope.
Set Warnings "-inexact-float".

(** ** JavaScript runtime pieces used by the sources *)

Module JS.

(** An integer seen as a JS number: the nearest binary64 value. *)
Definition of_Z (z : Z) : float := SF2Prim (binary_normalize prec emax z 0 false).

(** [Math.round]: the integer [floor (x + 1/2)], computed exactly on the
    binary expansion of [x].  The engine only rounds finite values (a
    quotient by a non-zero maximum, a weighted sum of four percentages);
    on NaN and the infinities, where [Math.round] returns its argument,
    this integer-valued model returns [0]. *)
Definition Math_round (x : float) : Z :=
  match Prim2SF x with
  | S754_finite s m e =>
      let n := if s then Z.neg m else Z.pos m in
      if 0 <=? e then n * 2 ^ e
      else (2 * n + 2 ^ (- e)) / 2 ^ (- e + 1)
  | _ => 0
  end.

(** [Math.max(...xs)] on a non-empty array of integers. *)
Definition Math_max (xs : list Z) : Z :=
  match xs with
  | [] => 0
  | x :: rest => fold_left Z.max rest x
  end.

(** [`${n}`] for an integer. *)
Definition toString (n : Z) : string := NilZero.string_of_int (Z.to_int n).

(** What a procedure throws.  [Error msg] is [new Error(msg)];
    [DuplicateEntry k] is the storage driver's error for an insert that
    breaks the UNIQUE constraint [k]; [BadRequest] is the rejection of an
    input that fails the procedure's zod schema. *)
Inductive Failure : Type :=
| Error (message : string)
| DuplicateEntry (constraint_name : string)
| BadRequest.

Inductive Outcome (A : Type) : Type :=
| Returned (value : A)
| Thrown (failure : Failure).
Arguments Returned {A} value.
Arguments Thrown {A} failure.

End JS.
Import JS.

(** ** shared/assessment.ts *)

Inductive Category : Type := behavioral | knowledge | environmental | socioeconomic.
Inductive RiskLevel : Type := low | moderate | high.

Definition Category_eqb (a b : Category) : bool :=
  match a, b with
  | behavioral, behavioral | knowledge, knowledge
  | environmental, environmental | socioeconomic, socioeconomic => true
  | _, _ => false
  end.

(** The string a [Category] value is at run time. *)
Definition Category_name (c : Category) : string :=
  match c with
  | behavioral => "behavioral"
  | knowledge => "knowledge"
  | environmental => "environmental"
  | socioeconomic => "socioeconomic"
  end.

Record AssessmentOption : Type := mkOption { text : string; points : Z }.

Record AssessmentQuestion : Type := mkQuestion {
  id : string;
  number : Z;
  category : Category;
  question : string;
  options : list AssessmentOption
}.

(** [Record<Category, A>]: an object with the four category keys, created by
    a literal that lists them in this order. *)
Record PerCategory (A : Type) : Type := mkPerCategory {
  at_behavioral : A;
  at_knowledge : A;
  at_environmental : A;
  at_socioeconomic : A
}.
Arguments mkPerCategory {A}.
Arguments at_behavioral {A}.
Arguments at_knowledge {A}.
Arguments at_environmental {A}.
Arguments at_socioeconomic {A}.

(** [record[category]] *)
Definition get {A} (r : PerCategory A) (c : Category) : A :=
  match c with
  | behavioral => at_behavioral r
  | knowledge => at_knowledge r
  | environmental => at_environmental r
  | socioeconomic => at_socioeconomic r
  end.

(** [record[category] = v] *)
Definition set {A} (r : PerCategory A) (c : Category) (v : A) : PerCategory A :=
  match c with
  | behavioral => mkPerCategory v (at_knowledge r) (at_environmental r) (at_socioeconomic r)
  | knowledge => mkPerCategory (at_behavioral r) v (at_environmental r) (at_socioeconomic r)
  | environmental => mkPerCategory (at_behavioral r) (at_knowledge r) v (at_socioeconomic r)
  | socioeconomic => mkPerCategory (at_behavioral r) (at_knowledge r) (at_environmental r) v
  end.

(** The keys in insertion order, which is the order [Object.entries] and
    [Object.values] enumerate them in. *)
Definition Object_keys : list Category :=
  [behavioral; knowledge; environmental; socioeconomic].

Definition Object_entries {A} (r : PerCategory A) : list (Category * A) :=
  map (fun c => (c, get r c)) Object_keys.

Definition Object_values {A} (r : PerCategory A) : list A :=
  map (get r) Object_keys.

Definition ASSESSMENT_QUESTIONS : list AssessmentQuestion := [
  mkQuestion "behavioral_1" 1 behavioral
    "Do you buy antibiotics without a doctor's prescription?"
    [mkOption "Never" 0; mkOption "Sometimes" 2; mkOption "Often" 3];
  mkQuestion "behavioral_2" 2 behavioral
    "Do you stop taking antibiotics when you feel better, even if the course is not complete?"
    [mkOption "No" 0; mkOption "Yes" 3];
  mkQuestion "behavioral_3" 3 behavioral
    "Do you use leftover antibiotics from previous illnesses?"
    [mkOption "No" 0; mkOption "Yes" 3];
  mkQuestion "behavioral_4" 4 behavioral
    "Do you share your antibiotics with family members or friends?"
    [mkOption "No" 0; mkOption "Yes" 2];
  mkQuestion "knowledge_1" 5 knowledge
    "Do you know that antibiotics only work against bacteria and not viruses?"
    [mkOption "No" 0; mkOption "Yes" 2];
  mkQuestion "knowledge_2" 6 knowledge
    "Are you aware that it is bacteria that become resistant, not your body?"
    [mkOption "No" 0; mkOption "Yes" 1];
  mkQuestion "knowledge_3" 7 knowledge
    "Do you know what Antimicrobial Resistance (AMR) is?"
    [mkOption "No" 0; mkOption "Yes" 1];
  mkQuestion "environmental_1" 8 environmental
    "Do you have access to clean drinking water and proper sanitation?"
    [mkOption "Yes" 0; mkOption "No" 2];
  mkQuestion "environmental_2" 9 environmental
    "Do you live in an area with poor waste management or environmental pollution?"
    [mkOption "No" 0; mkOption "Yes" 2];
  mkQuestion "environmental_3" 10 environmental
    "How often do you wash your hands with clean water and soap?"
    [mkOption "Always" 0; mkOption "Sometimes" 1; mkOption "Rarely" 2];
  mkQuestion "socioeconomic_1" 11 socioeconomic
    "Do you skip doses of prescribed antibiotics due to cost?"
    [mkOption "No" 0; mkOption "Yes" 2];
  mkQuestion "socioeconomic_2" 12 socioeconomic
    "Do you buy antibiotics from informal vendors or street sellers instead of licensed pharmacies?"
    [mkOption "No" 0; mkOption "Yes" 2]
].

Definition CATEGORY_WEIGHTS : PerCategory float :=
  mkPerCategory 0.4%float 0.2%float 0.2%float 0.2%float.

Definition MAX_POINTS_PER_CATEGORY : PerCategory Z :=
  mkPerCategory 11 4 6 4.

Record Band : Type := mkBand { min : Z; max : Z }.

Record RiskLevelThresholds : Type := mkThresholds {
  band_low : Band;
  band_moderate : Band;
  band_high : Band
}.

Definition RISK_LEVEL_THRESHOLDS : RiskLevelThresholds :=
  mkThresholds (mkBand 0 30) (mkBand 31 60) (mkBand 61 100).

(** [RISK_LEVEL_THRESHOLDS[level]] *)
Definition threshold (level : RiskLevel) : Band :=
  match level with
  | low => band_low RISK_LEVEL_THRESHOLDS
  | moderate => band_moderate RISK_LEVEL_THRESHOLDS
  | high => band_high RISK_LEVEL_THRESHOLDS
  end.

Definition getRiskLevel (score : Z) : RiskLevel :=
  if score <=? 30 then low
  else if score <=? 60 then moderate
  else high.

(** The procedures below read the catalog through the module-level constant
    [ASSESSMENT_QUESTIONS].  They take it here as the section variable
    [catalog], so that a property can speak of the catalog being changed;
    the running program is their instance at [ASSESSMENT_QUESTIONS]. *)

Section Catalog.

Variable catalog : list AssessmentQuestion.

Definition getQuestionById (questionId : string) : option AssessmentQuestion :=
  find (fun q => String.eqb (id q) questionId) catalog.

Definition getQuestionByNumber (n : Z) : option AssessmentQuestion :=
  find (fun q => number q =? n) catalog.

Definition getQuestionsByCategory (c : Category) : list AssessmentQuestion :=
  filter (fun q => Category_eqb (category q) c) catalog.

End Catalog.

(** ** server/scoring.ts *)

Record AssessmentAnswer : Type := mkAnswer {
  questionId : string;
  answer_category : Category;
  answerText : string;
  answer_points : Z
}.

Record ScoringResult : Type := mkScoringResult {
  totalScore : float;
  riskLevel : RiskLevel;
  categoryScores : PerCategory Z;
  categoryPercentages : PerCategory Z;
  highestRiskCategories : list string;
  interpretation : string;
  recommendations : list string
}.

Definition calculateCategoryPercentage (categoryScore : Z) (c : Category) : Z :=
  let maxPoints := get MAX_POINTS_PER_CATEGORY c in
  if maxPoints =? 0 then 0
  else Math_round ((of_Z categoryScore / of_Z maxPoints) * 100)%float.

Definition findHighestRiskCategories (categoryPercentages : PerCategory Z) : list string :=
  let maxPercentage := Math_max (Object_values categoryPercentages) in
  if maxPercentage =? 0 then []
  else
    map (fun '(c, _) => Category_name c)
      (filter (fun '(_, percentage) => percentage =? maxPercentage)
         (Object_entries categoryPercentages)).

Definition generateInterpretation (level : RiskLevel) (score : Z) : string :=
  match level with
  | low =>
      "Your AMR Risk Level is LOW (Score: " ++ toString score ++
      "/100). You demonstrate good antimicrobial stewardship practices. Continue following professional medical advice and maintaining your current practices."
  | moderate =>
      "Your AMR Risk Level is MODERATE (Score: " ++ toString score ++
      "/100). Some of your habits may increase your risk of contributing to antimicrobial resistance. Review the recommendations provided to reduce your risk."
  | high =>
      "Your AMR Risk Level is HIGH (Score: " ++ toString score ++
      "/100). Your current practices significantly increase your risk of contributing to antimicrobial resistance. Please consult a licensed healthcare professional for guidance on improving your practices."
  end.

(** The object literal [categoryRecommendations], read at a string key:
    the four keys it is written with, and [None] ([undefined]) elsewhere.
    The engine reads it at the keys [findHighestRiskCategories] returns,
    which are names of categories.  Keys that JavaScript would resolve on
    [Object.prototype] ([constructor], [toString], [__proto__], ...) are
    outside this model: nothing below is stated of them. *)
Definition categoryRecommendations (key : string) : option (list string) :=
  if String.eqb key "behavioral" then Some [
    "✓ Always complete the full course of antibiotics as prescribed, even if you feel better.";
    "✓ Only buy antibiotics with a valid doctor's prescription.";
    "✓ Never use leftover antibiotics from previous illnesses.";
    "✓ Do not share your antibiotics with family members or friends." ]
  else if String.eqb key "knowledge" then Some [
    "✓ Remember: Antibiotics only work against bacteria, not viruses like colds or flu.";
    "✓ It is bacteria that become resistant, not your body.";
    "✓ Always consult a healthcare professional to determine if you need antibiotics.";
    "✓ Learn more about Antimicrobial Resistance (AMR) to make informed health decisions." ]
  else if String.eqb key "environmental" then Some [
    "✓ Wash your hands frequently with clean water and soap.";
    "✓ Ensure access to clean drinking water and proper sanitation.";
    "✓ Practice good food hygiene to prevent infections.";
    "✓ Support community efforts to improve environmental sanitation." ]
  else if String.eqb key "socioeconomic" then Some [
    "✓ Do not skip doses due to cost; consult a healthcare provider for affordable options.";
    "✓ Visit licensed pharmacies or clinics instead of informal vendors.";
    "✓ Seek government health programs that provide subsidized medicines.";
    "✓ Report counterfeit medicines to local health authorities." ]
  else None.

Definition generateRecommendations (level : RiskLevel)
    (highestRiskCategories : list string) : list string :=
  let recommendations : list string := [] in
  let recommendations :=
    if 0 <? Z.of_nat (List.length highestRiskCategories) then
      fold_left
        (fun acc c =>
           match categoryRecommendations c with
           | Some rs => (acc ++ rs)%list
           | None => acc
           end)
        highestRiskCategories recommendations
    else recommendations in
  let recommendations :=
    match level with
    | high => (recommendations ++ [
        "⚠ Please consult a licensed healthcare professional before taking any antibiotics.";
        "⚠ Report any unusual symptoms to a medical professional immediately." ])%list
    | moderate => (recommendations ++ [
        "→ Learn more about antimicrobial resistance to make informed health decisions.";
        "→ Share this knowledge with your family and community." ])%list
    | low => recommendations
    end in
  (recommendations ++ [
    "📚 This assessment is for educational purposes only and is not a medical diagnosis. Please consult a healthcare professional for personalized medical advice." ])%list.

(** The second record [validateAnswer] returns: absent keys are [None]. *)
Record Validation : Type := mkValidation {
  valid : bool;
  validation_points : option Z;
  validation_category : option Category;
  error : option string
}.

Section CatalogScoring.

Variable catalog : list AssessmentQuestion.

Definition calculateRiskScore (answers : list AssessmentAnswer) : Outcome ScoringResult :=
  if negb (Nat.eqb (List.length answers) (List.length catalog)) then
    Thrown (Error ("Expected " ++ toString (Z.of_nat (List.length catalog)) ++
                   " answers, received " ++ toString (Z.of_nat (List.length answers))))
  else
    let categoryScores := mkPerCategory 0 0 0 0 in
    let categoryScores :=
      fold_left
        (fun scores answer =>
           set scores (answer_category answer)
             (get scores (answer_category answer) + answer_points answer))
        answers categoryScores in
    let categoryPercentages := mkPerCategory
      (calculateCategoryPercentage (at_behavioral categoryScores) behavioral)
      (calculateCategoryPercentage (at_knowledge categoryScores) knowledge)
      (calculateCategoryPercentage (at_environmental categoryScores) environmental)
      (calculateCategoryPercentage (at_socioeconomic categoryScores) socioeconomic) in
    let totalScore :=
      fold_left
        (fun total '(c, percentage) =>
           let weight := get CATEGORY_WEIGHTS c in
           (total + of_Z percentage * weight)%float)
        (Object_entries categoryPercentages) 0%float in
    let normalizedScore := Math_round totalScore in
    let riskLevel := getRiskLevel normalizedScore in
    let highestRiskCategories := findHighestRiskCategories categoryPercentages in
    let interpretation := generateInterpretation riskLevel normalizedScore in
    let recommendations := generateRecommendations riskLevel highestRiskCategories in
    Returned (mkScoringResult
      (of_Z (Math_round (totalScore * 100)%float) / 100)%float
      riskLevel categoryScores categoryPercentages highestRiskCategories
      interpretation recommendations).

Definition validateAnswer (questionId answerText : string) : Validation :=
  match find (fun q => String.eqb (id q) questionId) catalog with
  | None => mkValidation false None None (Some "Question not found")
  | Some question =>
      match find (fun opt => String.eqb (text opt) answerText) (options question) with
      | None =>
          mkValidation false None None
            (Some ("Invalid answer option. Valid options: " ++
                   String.concat ", " (map text (options question))))
      | Some option => mkValidation true (Some (points option)) (Some (category question)) None
      end
  end.

End CatalogScoring.

(** ** drizzle/schema.ts

    The three assessment tables.  The auto-increment [id] and the
    defaulted timestamp columns, which no procedure reads, are left out;
    a table is the list of its rows in insertion order. *)

Inductive Status : Type := in_progress | completed | abandoned.

Record Assessment : Type := mkAssessment {
  assessment_sessionId : string;      (* UNIQUE *)
  status : Status;
  userAgent : option string;
  ipHash : option string
}.

Record AssessmentResponse : Type := mkResponse {
  response_sessionId : string;
  response_questionId : string;
  response_category : Category;
  response_answerText : string;
  response_points : Z
}.

(** In a result row, [result_totalScore] is the number the insert is
    handed.  The column is an [int], so the database keeps a whole number
    in its place; the properties of stored rows below are stated on the
    other columns. *)
Record AssessmentResult : Type := mkResult {
  result_sessionId : string;          (* UNIQUE *)
  result_totalScore : float;
  result_riskLevel : RiskLevel;
  result_categoryScores : PerCategory Z;
  result_categoryPercentages : PerCategory Z;
  result_highestRiskCategories : list string;
  result_interpretation : string;
  result_recommendations : list string
}.

Record Db : Type := mkDb {
  assessments : list Assessment;
  assessmentResponses : list AssessmentResponse;
  assessmentResults : list AssessmentResult
}.

Definition emptyDb : Db := mkDb [] [] [].

(** ** Procedures over the store

    An [async] function that reads and writes the tables and may throw:
    it maps a store to an outcome and the store it leaves behind.  A
    [throw] keeps the writes made before it (no transaction is opened). *)

Definition M (A : Type) : Type := Db -> Outcome A * Db.

Definition ret {A} (a : A) : M A := fun db => (Returned a, db).

Definition throw {A} (f : Failure) : M A := fun db => (Thrown f, db).

Definition bind {A B} (m : M A) (k : A -> M B) : M B :=
  fun db =>
    match m db with
    | (Returned a, db') => k a db'
    | (Thrown f, db') => (Thrown f, db')
    end.

(** [try { body } catch (error) { throw handler(error) }] *)
Definition try_catch {A} (body : M A) (handler : Failure -> Failure) : M A :=
  fun db =>
    match body db with
    | (Returned a, db') => (Returned a, db')
    | (Thrown f, db') => (Thrown (handler f), db')
    end.

Notation "x <- m ;; k" := (bind m (fun x => k))
  (at level 61, m at next level, right associativity).
Notation "m ;;; k" := (bind m (fun _ => k))
  (at level 61, right associativity).

(** ** server/db.ts (with the store available) *)

Definition createAssessmentSession (sessionId : string)
    (userAgent ipHash : option string) : M string :=
  fun db =>
    if existsb (fun a => String.eqb (assessment_sessionId a) sessionId) (assessments db)
    then (Thrown (DuplicateEntry "assessments_sessionId_unique"), db)
    else
      let data := mkAssessment sessionId in_progress userAgent ipHash in
      (Returned sessionId,
       mkDb (assessments db ++ [data])%list (assessmentResponses db) (assessmentResults db)).

Definition getAssessmentSession (sessionId : string) : M (option Assessment) :=
  fun db =>
    (Returned (find (fun a => String.eqb (assessment_sessionId a) sessionId) (assessments db)),
     db).

Definition saveAssessmentResponse (sessionId questionId : string) (c : Category)
    (answerText : string) (points : Z) : M unit :=
  fun db =>
    let data := mkResponse sessionId questionId c answerText points in
    (Returned tt,
     mkDb (assessments db) (assessmentResponses db ++ [data])%list (assessmentResults db)).

Definition getAssessmentResponses (sessionId : string) : M (list AssessmentResponse) :=
  fun db =>
    (Returned (filter (fun r => String.eqb (response_sessionId r) sessionId)
                 (assessmentResponses db)),
     db).

Definition saveAssessmentResult (sessionId : string) (totalScore : float)
    (riskLevel : RiskLevel) (categoryScores categoryPercentages : PerCategory Z)
    (highestRiskCategories : list string) (interpretation : string)
    (recommendations : list string) : M unit :=
  fun db =>
    if existsb (fun r => String.eqb (result_sessionId r) sessionId) (assessmentResults db)
    then (Thrown (DuplicateEntry "assessmentResults_sessionId_unique"), db)
    else
      let data := mkResult sessionId totalScore riskLevel categoryScores
                    categoryPercentages highestRiskCategories interpretation
                    recommendations in
      (Returned tt,
       mkDb (assessments db) (assessmentResponses db) (assessmentResults db ++ [data])%list).

Definition getAssessmentResult (sessionId : string) : M (option AssessmentResult) :=
  fun db =>
    (Returned (find (fun r => String.eqb (result_sessionId r) sessionId) (assessmentResults db)),
     db).

Definition completeAssessment (sessionId : string) : M unit :=
  fun db =>
    (Returned tt,
     mkDb
       (map (fun a =>
               if String.eqb (assessment_sessionId a) sessionId
               then mkAssessment (assessment_sessionId a) completed (userAgent a) (ipHash a)
               else a)
          (assessments db))
       (assessmentResponses db) (assessmentResults db)).

(** ** The assessment router *)

(** What a client receives for an option: its label and nothing else. *)
Record PublicOption : Type := mkPublicOption { option_text : string }.

Record QuestionView : Type := mkQuestionView {
  view_id : string;
  view_number : Z;
  view_category : Category;
  view_question : string;
  view_options : list PublicOption;
  view_totalQuestions : Z
}.

Record QuestionEntry : Type := mkQuestionEntry {
  entry_id : string;
  entry_number : Z;
  entry_category : Category;
  entry_question : string;
  entry_options : list PublicOption
}.

Record QuestionListing : Type := mkQuestionListing {
  questions : list QuestionEntry;
  listing_totalQuestions : Z
}.

Record SubmitResponseReply : Type := mkSubmitResponseReply {
  success : bool;
  responsesCount : Z;
  reply_totalQuestions : Z
}.

(** [z.string().min(1)] *)
Definition zod_string_min1 (s : string) : bool := negb (String.eqb s "").

(** Runs [body] when the input passed its schema. *)
Definition with_input {A} (accepted : bool) (body : M A) : M A :=
  if accepted then body else throw BadRequest.

Section Router.

Variable catalog : list AssessmentQuestion.

(** [sessionId] is the identifier [nanoid(32)] drew; [userAgent] and
    [ipHash] are what the procedure derived from the request. *)
Definition createSession (sessionId : string) (userAgent ipHash : option string)
    : M string :=
  try_catch
    (createAssessmentSession sessionId userAgent ipHash ;;;
     ret sessionId)
    (fun _ => Error "Failed to create assessment session").

Definition getQuestion (sessionId : string) (questionNumber : Z) : M QuestionView :=
  with_input
    (zod_string_min1 sessionId && (1 <=? questionNumber) && (questionNumber <=? 12))
    (try_catch
       (session <- getAssessmentSession sessionId ;;
        match session with
        | None => throw (Error "Session not found")
        | Some _ =>
            match getQuestionByNumber catalog questionNumber with
            | None => throw (Error "Question not found")
            | Some q =>
                ret (mkQuestionView (id q) (number q) (category q) (question q)
                       (map (fun opt => mkPublicOption (text opt)) (options q))
                       (Z.of_nat (List.length catalog)))
            end
        end)
       (fun _ => Error "Failed to retrieve question")).

Definition submitResponse (sessionId questionId answerText : string)
    : M SubmitResponseReply :=
  with_input
    (zod_string_min1 sessionId && zod_string_min1 questionId && zod_string_min1 answerText)
    (try_catch
       (session <- getAssessmentSession sessionId ;;
        match session with
        | None => throw (Error "Session not found")
        | Some session =>
            match status session with
            | in_progress =>
                let validation := validateAnswer catalog questionId answerText in
                if negb (valid validation) then
                  throw (Error (match error validation with Some m => m | None => "" end))
                else
                  match validation_category validation, validation_points validation with
                  | Some c, Some p =>
                      saveAssessmentResponse sessionId questionId c answerText p ;;;
                      responses <- getAssessmentResponses sessionId ;;
                      ret (mkSubmitResponseReply true
                             (Z.of_nat (List.length responses))
                             (Z.of_nat (List.length catalog)))
                  (* [validation.category!], [validation.points!]: both keys
                     are present whenever [valid] is true; the store would
                     refuse an absent one (NOT NULL columns) *)
                  | _, _ => throw (Error "Failed to submit response")
                  end
            | _ => throw (Error "Assessment already completed")
            end
        end)
       (fun e => e)).

Definition submitAssessment (sessionId : string) : M ScoringResult :=
  with_input (zod_string_min1 sessionId)
    (try_catch
       (session <- getAssessmentSession sessionId ;;
        match session with
        | None => throw (Error "Session not found")
        | Some _ =>
            responses <- getAssessmentResponses sessionId ;;
            if negb (Nat.eqb (List.length responses) (List.length catalog)) then
              throw (Error ("Incomplete assessment. Expected " ++
                            toString (Z.of_nat (List.length catalog)) ++
                            " responses, got " ++
                            toString (Z.of_nat (List.length responses))))
            else
              let answers :=
                map (fun r => mkAnswer (response_questionId r) (response_category r)
                                (response_answerText r) (response_points r))
                  responses in
              match calculateRiskScore catalog answers with
              | Thrown e => throw e
              | Returned result =>
                  saveAssessmentResult sessionId
                    (totalScore result) (riskLevel result) (categoryScores result)
                    (categoryPercentages result) (highestRiskCategories result)
                    (interpretation result) (recommendations result) ;;;
                  completeAssessment sessionId ;;;
                  ret result
              end
        end)
       (fun e => e)).

Definition getResult (sessionId : string) : M ScoringResult :=
  with_input (zod_string_min1 sessionId)
    (try_catch
       (result <- getAssessmentResult sessionId ;;
        match result with
        | None => throw (Error "Assessment result not found")
        | Some r =>
            ret (mkScoringResult (result_totalScore r) (result_riskLevel r)
                   (result_categoryScores r) (result_categoryPercentages r)
                   (result_highestRiskCategories r) (result_interpretation r)
                   (result_recommendations r))
        end)
       (fun _ => Error "Failed to retrieve assessment result")).

Definition getQuestions : QuestionListing :=
  mkQuestionListing
    (map (fun q =>
            mkQuestionEntry (id q) (number q) (category q) (question q)
              (map (fun opt => mkPublicOption (text opt)) (options q)))
       catalog)
    (Z.of_nat (List.length catalog)).

End Router.

(** A client's calls, one after the other, on the running program. *)
Inductive Call : Type :=
| CreateSession (sessionId : string) (userAgent ipHash : option string)
| GetQuestion (sessionId : string) (questionNumber : Z)
| SubmitResponse (sessionId questionId answerText : string)
| SubmitAssessment (sessionId : string)
| GetResult (sessionId : string).

Definition step (c : Call) (db : Db) : Db :=
  match c with
  | CreateSession s ua ip => snd (createSession s ua ip db)
  | GetQuestion s n => snd (getQuestion ASSESSMENT_QUESTIONS s n db)
  | SubmitResponse s q a => snd (submitResponse ASSESSMENT_QUESTIONS s q a db)
  | SubmitAssessment s => snd (submitAssessment ASSESSMENT_QUESTIONS s db)
  | GetResult s => snd (getResult s db)
  end.

(** The store after the calls [cs], starting from the empty store. *)
Definition run (cs : list Call) : Db := fold_left (fun db c => step c db) cs emptyDb.

(** * Vocabulary of the properties *)

(** The (category, points) pair of an answer: all the engine reads of it. *)
Definition pair_of (a : AssessmentAnswer) : Category * Z :=
  (answer_category a, answer_points a).

(** The sum of the points paired with category [c]. *)
Definition categoryTotal (c : Category) (pairs : list (Category * Z)) : Z :=
  fold_right Z.add 0 (map snd (filter (fun p => Category_eqb (fst p) c) pairs)).

(** The four sums, as a per-category object. *)
Definition categoryTotals (pairs : list (Category * Z)) : PerCategory Z :=
  mkPerCategory (categoryTotal behavioral pairs) (categoryTotal knowledge pairs)
    (categoryTotal environmental pairs) (categoryTotal socioeconomic pairs).

(** What [calculateRiskScore] builds from the sums its loop leaves in
    [categoryScores]. *)
Definition scoreOf (categoryScores : PerCategory Z) : ScoringResult :=
  let categoryPercentages := mkPerCategory
    (calculateCategoryPercentage (at_behavioral categoryScores) behavioral)
    (calculateCategoryPercentage (at_knowledge categoryScores) knowledge)
    (calculateCategoryPercentage (at_environmental categoryScores) environmental)
    (calculateCategoryPercentage (at_socioeconomic categoryScores) socioeconomic) in
  let totalScore :=
    fold_left
      (fun total '(c, percentage) =>
         (total + of_Z percentage * get CATEGORY_WEIGHTS c)%float)
      (Object_entries categoryPercentages) 0%float in
  let normalizedScore := Math_round totalScore in
  let riskLevel := getRiskLevel normalizedScore in
  let highestRiskCategories := findHighestRiskCategories categoryPercentages in
  mkScoringResult
    (of_Z (Math_round (totalScore * 100)%float) / 100)%float
    riskLevel categoryScores categoryPercentages highestRiskCategories
    (generateInterpretation riskLevel normalizedScore)
    (generateRecommendations riskLevel highestRiskCategories).

(** Twelve answers drawn from the catalog whose points sum to 8, 3, 4 and 2. *)
Definition scenario_answers : list AssessmentAnswer := [
  mkAnswer "behavioral_1" behavioral "Often" 3;
  mkAnswer "behavioral_2" behavioral "Yes" 3;
  mkAnswer "behavioral_3" behavioral "No" 0;
  mkAnswer "behavioral_4" behavioral "Yes" 2;
  mkAnswer "knowledge_1" knowledge "Yes" 2;
  mkAnswer "knowledge_2" knowledge "Yes" 1;
  mkAnswer "knowledge_3" knowledge "No" 0;
  mkAnswer "environmental_1" environmental "No" 2;
  mkAnswer "environmental_2" environmental "Yes" 2;
  mkAnswer "environmental_3" environmental "Always" 0;
  mkAnswer "socioeconomic_1" socioeconomic "Yes" 2;
  mkAnswer "socioeconomic_2" socioeconomic "No" 0 ].

(** [answer] is what [validateAnswer] resolves its question and label to. *)
Definition drawn_from_catalog (a : AssessmentAnswer) : bool :=
  let v := validateAnswer ASSESSMENT_QUESTIONS (questionId a) (answerText a) in
  valid v
  && match validation_category v with
     | Some c => Category_eqb c (answer_category a)
     | None => false
     end
  && match validation_points v with
     | Some p => p =? answer_points a
     | None => false
     end.

(** [score] lies in the band [RISK_LEVEL_THRESHOLDS] gives [level]. *)
Definition in_band (level : RiskLevel) (score : Z) : Prop :=
  min (threshold level) <= score <= max (threshold level).

(** The position of a category in the catalog's order. *)
Definition Category_index (c : Category) : nat :=
  match c with
  | behavioral => 0
  | knowledge => 1
  | environmental => 2
  | socioeconomic => 3
  end.

(** Proves [NoDup] of a list of string literals. *)
Ltac distinct_strings :=
  repeat (constructor; [cbn; intuition discriminate|]); constructor.

(** Two questions that differ at most in the point values of their options. *)
Definition same_but_points (q q' : AssessmentQuestion) : Prop :=
  id q = id q' /\ number q = number q' /\ category q = category q' /\
  question q = question q' /\ map text (options q) = map text (options q').

(** [catalog'] is [catalog] with some point values changed. *)
Definition repriced (catalog catalog' : list AssessmentQuestion) : Prop :=
  Forall2 same_but_points catalog catalog'.

(** The options of a question as the question procedures send them. *)
Definition publicOptions (q : AssessmentQuestion) : list PublicOption :=
  map (fun opt => mkPublicOption (text opt)) (options q).

(** The catalog with every point value set to 100. *)
Definition catalog_all_100 : list AssessmentQuestion :=
  map (fun q => mkQuestion (id q) (number q) (category q) (question q)
                  (map (fun o => mkOption (text o) 100) (options q)))
    ASSESSMENT_QUESTIONS.

(** A respondent opens session ["s"] and answers each question once. *)
Definition answered_once : list Call :=
  CreateSession "s" None None ::
  map (fun a => SubmitResponse "s" (questionId a) (answerText a)) scenario_answers.

(** ... and then asks for the result. *)
Definition finalized_once : list Call :=
  (answered_once ++ [SubmitAssessment "s"])%list.

(** A client opens session ["s"] and answers the first question twelve times. *)
Definition twelve_often : list Call :=
  CreateSession "s" None None ::
  repeat (SubmitResponse "s" "behavioral_1" "Often") 12.

(** The status column of session [sessionId], when the session is stored. *)
Definition session_status (sessionId : string) (db : Db) : option Status :=
  option_map status
    (find (fun a => String.eqb (assessment_sessionId a) sessionId) (assessments db)).

(** The largest point value among the options of a question. *)
Definition question_max (q : AssessmentQuestion) : Z :=
  fold_right Z.max 0 (map points (options q)).

(** The most a response to question [questionId] can add to category [c]. *)
Definition id_bound (c : Category) (questionId : string) : Z :=
  match getQuestionById ASSESSMENT_QUESTIONS questionId with
  | Some q => if Category_eqb (category q) c then question_max q else 0
  | None => 0
  end.

(** One answer per catalog question, each resolved by the validator. *)
Definition one_per_question (answers : list AssessmentAnswer) : Prop :=
  Permutation (map questionId answers) (map id ASSESSMENT_QUESTIONS) /\
  forallb drawn_from_catalog answers = true.

(** The answer [submitAssessment] makes of a response row. *)
Definition answer_of (r : AssessmentResponse) : AssessmentAnswer :=
  mkAnswer (response_questionId r) (response_category r)
    (response_answerText r) (response_points r).

(** The rows of session [sessionId], as [getAssessmentResponses] selects them. *)
Definition responses_of (sessionId : string) (db : Db) : list AssessmentResponse :=
  filter (fun r => String.eqb (response_sessionId r) sessionId) (assessmentResponses db).

(** Every response row holds what the validator resolved its question and
    label to. *)
Definition validated (db : Db) : Prop :=
  Forall (fun r => drawn_from_catalog (answer_of r) = true) (assessmentResponses db).

(** * Vocabulary: catalog pairs and the sums as the program adds them *)

(** [cp] pairs the category of a catalog question with the points of one
    of its options. *)
Definition catalog_pair (cp : Category * Z) : bool :=
  existsb
    (fun q =>
       Category_eqb (category q) (fst cp)
       && existsb (fun o => points o =? snd cp) (options q))
    ASSESSMENT_QUESTIONS.

Definition PerCategory_map {A B} (f : A -> B) (r : PerCategory A) : PerCategory B :=
  mkPerCategory (f (at_behavioral r)) (f (at_knowledge r))
    (f (at_environmental r)) (f (at_socioeconomic r)).

(** The loop [for (const answer of answers) categoryScores[answer.category]
    += answer.points] as the program runs it: binary64 additions, in the
    order of the list, from the object of four zeros. *)
Definition binary64Sums (answers : list AssessmentAnswer) : PerCategory float :=
  fold_left
    (fun scores answer =>
       set scores (answer_category answer)
         (get scores (answer_category answer) + of_Z (answer_points answer))%float)
    answers (mkPerCategory 0%float 0%float 0%float 0%float).

(** * Vocabulary: scores, sessions and stores *)

(** The percentages [calculateRiskScore] derives from the category sums. *)
Definition percentagesOf (sums : PerCategory Z) : PerCategory Z :=
  mkPerCategory
    (calculateCategoryPercentage (at_behavioral sums) behavioral)
    (calculateCategoryPercentage (at_knowledge sums) knowledge)
    (calculateCategoryPercentage (at_environmental sums) environmental)
    (calculateCategoryPercentage (at_socioeconomic sums) socioeconomic).

(** The weighted total of [calculateRiskScore], before any rounding. *)
Definition weightedTotal (percentages : PerCategory Z) : float :=
  fold_left
    (fun total '(c, percentage) =>
       (total + of_Z percentage * get CATEGORY_WEIGHTS c)%float)
    (Object_entries percentages) 0%float.

(** [normalizedScore]: the integer the risk level is read from and the
    interpretation shows. *)
Definition displayedScore (sums : PerCategory Z) : Z :=
  Math_round (weightedTotal (percentagesOf sums)).

(** Sums that answers to distinct questions can reach. *)
Definition in_range (sums : PerCategory Z) : Prop :=
  forall c, 0 <= get sums c <= get MAX_POINTS_PER_CATEGORY c.

Definition pointwise_le (sums sums' : PerCategory Z) : Prop :=
  forall c, get sums c <= get sums' c.

(** The integers from 0 to [n]. *)
Definition upto (n : Z) : list Z := map Z.of_nat (seq 0 (S (Z.to_nat n))).

(** Every combination of sums within the category maxima. *)
Definition all_sums : list (PerCategory Z) :=
  flat_map (fun b =>
    flat_map (fun k =>
      flat_map (fun e =>
        map (fun s => mkPerCategory b k e s)
          (upto (at_socioeconomic MAX_POINTS_PER_CATEGORY)))
        (upto (at_environmental MAX_POINTS_PER_CATEGORY)))
      (upto (at_knowledge MAX_POINTS_PER_CATEGORY)))
    (upto (at_behavioral MAX_POINTS_PER_CATEGORY)).

Definition RiskLevel_rank (level : RiskLevel) : Z :=
  match level with
  | low => 0
  | moderate => 1
  | high => 2
  end.

Definition zero_sums : PerCategory Z := mkPerCategory 0 0 0 0.

(** What is checked of the score at one combination of sums. *)
Definition score_check (sums : PerCategory Z) : bool :=
  let total := weightedTotal (percentagesOf sums) in
  let s := displayedScore sums in
  let reported := (of_Z (Math_round (total * 100)%float) / 100)%float in
  (0 <=? s) && (s <=? 100)
  && (Math_round reported =? s)
  && PrimFloat.leb 0%float reported && PrimFloat.leb reported 100%float.

Definition PerCategory_eqb (a b : PerCategory Z) : bool :=
  (at_behavioral a =? at_behavioral b) && (at_knowledge a =? at_knowledge b)
  && (at_environmental a =? at_environmental b)
  && (at_socioeconomic a =? at_socioeconomic b).

(** The score is 0 at the zero sums only, 100 at the maxima only, and no
    category is highest-risk at the zero sums only. *)
Definition extremes_check (sums : PerCategory Z) : bool :=
  Bool.eqb (displayedScore sums =? 0) (PerCategory_eqb sums zero_sums)
  && Bool.eqb (displayedScore sums =? 100)
       (PerCategory_eqb sums MAX_POINTS_PER_CATEGORY)
  && Bool.eqb
       (match findHighestRiskCategories (percentagesOf sums) with
        | [] => true
        | _ => false
        end)
       (PerCategory_eqb sums zero_sums).

(** One more point in category [c], when there is room for it, does not
    lower the score. *)
Definition step_check (sums : PerCategory Z) : bool :=
  forallb
    (fun c =>
       if get sums c <? get MAX_POINTS_PER_CATEGORY c then
         displayedScore sums <=? displayedScore (set sums c (get sums c + 1))
       else true)
    Object_keys.

(** The last line of every recommendation list. *)
Definition disclaimer : string :=
  "📚 This assessment is for educational purposes only and is not a medical diagnosis. Please consult a healthcare professional for personalized medical advice.".

(** Twelve answers, each the option of its question with the most points. *)
Definition riskiest_answers : list AssessmentAnswer := [
  mkAnswer "behavioral_1" behavioral "Often" 3;
  mkAnswer "behavioral_2" behavioral "Yes" 3;
  mkAnswer "behavioral_3" behavioral "Yes" 3;
  mkAnswer "behavioral_4" behavioral "Yes" 2;
  mkAnswer "knowledge_1" knowledge "Yes" 2;
  mkAnswer "knowledge_2" knowledge "Yes" 1;
  mkAnswer "knowledge_3" knowledge "Yes" 1;
  mkAnswer "environmental_1" environmental "No" 2;
  mkAnswer "environmental_2" environmental "Yes" 2;
  mkAnswer "environmental_3" environmental "Rarely" 2;
  mkAnswer "socioeconomic_1" socioeconomic "Yes" 2;
  mkAnswer "socioeconomic_2" socioeconomic "Yes" 2 ].

(** The guidance [generateRecommendations] adds for a risk level. *)
Definition level_guidance (level : RiskLevel) : list string :=
  match level with
  | high => [
      "⚠ Please consult a licensed healthcare professional before taking any antibiotics.";
      "⚠ Report any unusual symptoms to a medical professional immediately." ]
  | moderate => [
      "→ Learn more about antimicrobial resistance to make informed health decisions.";
      "→ Share this knowledge with your family and community." ]
  | low => []
  end.

(** The recommendations [categoryRecommendations] holds under the name of
    a category. *)
Definition recommendations_at (c : Category) : list string :=
  match categoryRecommendations (Category_name c) with
  | Some rs => rs
  | None => []
  end.

(** The store after the calls [cs], starting from [db]. *)
Definition run_from (db : Db) (cs : list Call) : Db :=
  fold_left (fun db c => step c db) cs db.

(** The session a call addresses. *)
Definition session_of_call (c : Call) : string :=
  match c with
  | CreateSession s _ _ => s
  | GetQuestion s _ => s
  | SubmitResponse s _ _ => s
  | SubmitAssessment s => s
  | GetResult s => s
  end.

(** The result row of session [sessionId], as [getAssessmentResult] selects it. *)
Definition result_of (sessionId : string) (db : Db) : option AssessmentResult :=
  find (fun r => String.eqb (result_sessionId r) sessionId) (assessmentResults db).

(** All the store holds about one session. *)
Definition view (sessionId : string) (db : Db)
    : option Status * list AssessmentResponse * option AssessmentResult :=
  (session_status sessionId db, responses_of sessionId db, result_of sessionId db).

(** The values [saveAssessmentResult] is handed for a result. *)
Definition row_of (sessionId : string) (r : ScoringResult) : AssessmentResult :=
  mkResult sessionId (totalScore r) (riskLevel r) (categoryScores r)
    (categoryPercentages r) (highestRiskCategories r) (interpretation r)
    (recommendations r).

(** The score of the rows the store holds for a session. *)
Definition session_score (sessionId : string) (db : Db) : ScoringResult :=
  scoreOf (categoryTotals (map pair_of (map answer_of (responses_of sessionId db)))).

(** What [completeAssessment] makes of a session row. *)
Definition complete (sessionId : string) (a : Assessment) : Assessment :=
  if String.eqb (assessment_sessionId a) sessionId
  then mkAssessment (assessment_sessionId a) completed (userAgent a) (ipHash a)
  else a.

(** When [submitResponse] accepts. *)
Definition accepts (sessionId questionId answerText : string) (db : Db) : bool :=
  zod_string_min1 sessionId && zod_string_min1 questionId
  && zod_string_min1 answerText
  && match session_status sessionId db with
     | Some in_progress => true
     | _ => false
     end
  && valid (validateAnswer ASSESSMENT_QUESTIONS questionId answerText).

(** When [submitAssessment] goes through. *)
Definition ready (sessionId : string) (db : Db) : bool :=
  zod_string_min1 sessionId
  && match session_status sessionId db with
     | Some _ => true
     | None => false
     end
  && Nat.eqb (List.length (responses_of sessionId db)) 12
  && match result_of sessionId db with
     | Some _ => false
     | None => true
     end.

(** The columns of a stored row other than [totalScore]: that column is an
    [int], which keeps a whole number where the engine's [totalScore] has
    two decimals, so what is said of a stored row is said of these
    columns. *)
Definition stored_fields (row : AssessmentResult) :=
  (result_riskLevel row, result_categoryScores row, result_categoryPercentages row,
   result_highestRiskCategories row, result_interpretation row,
   result_recommendations row).

Definition result_fields (r : ScoringResult) :=
  (riskLevel r, categoryScores r, categoryPercentages r,
   highestRiskCategories r, interpretation r, recommendations r).

(** What holds of every store the procedures can reach. *)
Record consistent (db : Db) : Prop := mkConsistent {
  sessions_distinct : NoDup (map assessment_sessionId (assessments db));
  results_distinct : NoDup (map result_sessionId (assessmentResults db));
  never_abandoned : forall s, session_status s db <> Some abandoned;
  responses_have_session :
    forall s, responses_of s db <> [] -> session_status s db <> None;
  completed_has_result :
    forall s, session_status s db = Some completed -> result_of s db <> None;
  result_is_score :
    forall s row, result_of s db = Some row ->
      session_status s db = Some completed /\
      List.length (responses_of s db) = 12%nat /\
      row = row_of s (session_score s db)
}.

(** The store after a call, case by case. *)
Inductive effect (db : Db) : Call -> Db -> Prop :=
| effect_none c : effect db c db
| effect_created s ua ip :
    session_status s db = None ->
    effect db (CreateSession s ua ip)
      (mkDb (assessments db ++ [mkAssessment s in_progress ua ip])%list
         (assessmentResponses db) (assessmentResults db))
| effect_answered s q a c p :
    session_status s db = Some in_progress ->
    validateAnswer ASSESSMENT_QUESTIONS q a = mkValidation true (Some p) (Some c) None ->
    effect db (SubmitResponse s q a)
      (mkDb (assessments db)
         (assessmentResponses db ++ [mkResponse s q c a p])%list
         (assessmentResults db))
| effect_finalized s :
    session_status s db <> None ->
    List.length (responses_of s db) = 12%nat ->
    result_of s db = None ->
    effect db (SubmitAssessment s)
      (mkDb (map (complete s) (assessments db)) (assessmentResponses db)
         (assessmentResults db ++ [row_of s (session_score s db)])%list).

(** [o] is one of the options of [q]. *)
Definition offered (q : AssessmentQuestion) (o : AssessmentOption) : Prop :=
  In o (options q).

(** The calls of a respondent who answers the questions [qs] in order,
    picking the options [choices]. *)
Definition answer_calls (s : string) (qs : list AssessmentQuestion)
    (choices : list AssessmentOption) : list Call :=
  map (fun '(q, o) => SubmitResponse s (id q) (text o)) (combine qs choices).

(** The response rows those calls leave. *)
Definition answer_rows (s : string) (qs : list AssessmentQuestion)
    (choices : list AssessmentOption) : list AssessmentResponse :=
  map (fun '(q, o) => mkResponse s (id q) (category q) (text o) (points o))
    (combine qs choices).

(** The (category, points) pairs of the options picked. *)
Definition choice_pairs (qs : list AssessmentQuestion)
    (choices : list AssessmentOption) : list (Category * Z) :=
  map (fun '(q, o) => (category q, points o)) (combine qs choices).

(** * Users (drizzle/schema.ts, server/db.ts)

    The [users] table and the two procedures over it.  As for the
    assessment tables, the auto-increment [id] and the columns the store
    stamps itself ([createdAt], [updatedAt]) are left out, the store is
    taken to be available, and column widths are not modelled.  A [Date] is
    a number of milliseconds; [now] is the reading of [new Date()]. *)















(** * The answer-set helper of the scoring tests

    [createAnswerSet(pointsPerQuestion)] maps the catalog, question by
    question; the callback throws at the first question none of whose
    options has the points asked for. *)

Fixpoint createAnswerSet_map (questions : list AssessmentQuestion) (index : nat)
    (pointsPerQuestion : list Z) : Outcome (list AssessmentAnswer) :=
  match questions with
  | [] => Returned []
  | question :: rest =>
      match nth_error pointsPerQuestion index with
      | None =>
          (* [pointsPerQuestion[index]] is [undefined] *)
          Thrown (Error ("No option with undefined points for question " ++
                         id question))
      | Some p =>
          match find (fun opt => points opt =? p) (options question) with
          | None =>
              Thrown (Error ("No option with " ++ toString p ++
                             " points for question " ++ id question))
          | Some option =>
              match createAnswerSet_map rest (S index) pointsPerQuestion with
              | Thrown e => Thrown e
              | Returned answers =>
                  Returned (mkAnswer (id question) (category question)
                              (text option) p :: answers)
              end
          end
      end
  end.

Definition createAnswerSet (pointsPerQuestion : list Z)
    : Outcome (list AssessmentAnswer) :=
  if negb (Nat.eqb (List.length pointsPerQuestion) 12) then
    Thrown (Error "Must provide 12 point values")
  else createAnswerSet_map ASSESSMENT_QUESTIONS 0 pointsPerQuestion.

(** Some option of [q] has [p] points. *)
Definition has_points (q : AssessmentQuestion) (p : Z) : Prop :=
  In p (map points (options q)).

(** * Properties *)

(** ** The engine as a function of the per-category sums *)

Lemma categoryTotal_cons c x pairs :
  categoryTotal c (x :: pairs) =
  (if Category_eqb (fst x) c then snd x else 0) + categoryTotal c pairs.
Proof.
  unfold categoryTotal; simpl.
  destruct (Category_eqb (fst x) c); simpl; lia.
Qed.

Lemma sum_loop answers : forall scores,
  fold_left
    (fun scores answer =>
       set scores (answer_category answer)
         (get scores (answer_category answer) + answer_points answer))
    answers scores
  = mkPerCategory
      (at_behavioral scores + categoryTotal behavioral (map pair_of answers))
      (at_knowledge scores + categoryTotal knowledge (map pair_of answers))
      (at_environmental scores + categoryTotal environmental (map pair_of answers))
      (at_socioeconomic scores + categoryTotal socioeconomic (map pair_of answers)).
Proof.
  induction answers as [|a answers IH]; intros scores.
  - destruct scores; simpl; unfold categoryTotal; simpl.
    now rewrite !Z.add_0_r.
  - destruct a as [q c t p]. cbn [fold_left map]. rewrite IH, !categoryTotal_cons.
    change (pair_of (mkAnswer q c t p)) with (c, p).
    cbn [fst snd answer_category answer_points].
    destruct scores, c; cbn [get set Category_eqb at_behavioral at_knowledge
      at_environmental at_socioeconomic]; f_equal; lia.
Qed.

Lemma calculateRiskScore_totals catalog answers :
  List.length answers = List.length catalog ->
  calculateRiskScore catalog answers =
  Returned (scoreOf (categoryTotals (map pair_of answers))).
Proof.
  intros Hlen. unfold calculateRiskScore.
  rewrite Hlen, Nat.eqb_refl. cbn [negb]. cbv zeta.
  rewrite sum_loop. reflexivity.
Qed.

Lemma calculateRiskScore_mismatch catalog answers :
  List.length answers <> List.length catalog ->
  exists message, calculateRiskScore catalog answers = Thrown (Error message).
Proof.
  intros Hlen. unfold calculateRiskScore.
  apply Nat.eqb_neq in Hlen. rewrite Hlen. cbn [negb]. eauto.
Qed.

Lemma categoryTotal_Permutation c pairs pairs' :
  Permutation pairs pairs' -> categoryTotal c pairs = categoryTotal c pairs'.
Proof.
  induction 1 as [| x l l' _ IH | x y l | l l' l'' _ IH1 _ IH2].
  - reflexivity.
  - rewrite !categoryTotal_cons. now rewrite IH.
  - rewrite !categoryTotal_cons. lia.
  - now rewrite IH1.
Qed.

(** ** The worked scenario *)

Lemma scenario_answers_drawn : forallb drawn_from_catalog scenario_answers = true.
Proof. vm_compute. reflexivity. Qed.

(** C1.  Twelve answers whose points sum to behavioral 8, knowledge 3,
    environmental 4 and socioeconomic 2 are scored with the percentages
    73, 75, 67 and 50; the weighted total is reported as 67.6 and rounds
    to 68, the score the interpretation shows; the risk level is [high]
    and the highest-risk categories are exactly [knowledge]. *)
Theorem scenario_8_3_4_2 (answers : list AssessmentAnswer) :
  List.length answers = 12%nat ->
  categoryTotals (map pair_of answers) = mkPerCategory 8 3 4 2 ->
  exists r,
    calculateRiskScore ASSESSMENT_QUESTIONS answers = Returned r /\
    categoryScores r = mkPerCategory 8 3 4 2 /\
    categoryPercentages r = mkPerCategory 73 75 67 50 /\
    totalScore r = 67.6%float /\
    Math_round (totalScore r) = 68 /\
    riskLevel r = high /\
    interpretation r = generateInterpretation high 68 /\
    highestRiskCategories r = ["knowledge"].
Proof.
  intros Hlen Hsums.
  rewrite calculateRiskScore_totals by exact Hlen.
  rewrite Hsums. eexists. split; [reflexivity|].
  vm_compute. repeat split; reflexivity.
Qed.

Lemma scenario_8_3_4_2_witness :
  exists r,
    calculateRiskScore ASSESSMENT_QUESTIONS scenario_answers = Returned r /\
    categoryScores r = mkPerCategory 8 3 4 2 /\
    categoryPercentages r = mkPerCategory 73 75 67 50 /\
    totalScore r = 67.6%float /\
    Math_round (totalScore r) = 68 /\
    riskLevel r = high /\
    interpretation r = generateInterpretation high 68 /\
    highestRiskCategories r = ["knowledge"].
Proof.
  apply (scenario_8_3_4_2 scenario_answers); reflexivity.
Defined.

(** ** Order independence *)

Lemma catalog_pair_points cp : catalog_pair cp = true -> 0 <= snd cp <= 3.
Proof.
  destruct cp as [c p]. unfold catalog_pair.
  cbn [existsb ASSESSMENT_QUESTIONS category options points fst snd].
  intros H.
  repeat match type of H with
         | (_ || _)%bool = true => apply orb_prop in H as [H|H]
         | (_ && _)%bool = true => apply andb_prop in H as [_ H]
         | (_ =? _) = true => apply Z.eqb_eq in H; lia
         | false = true => discriminate H
         end.
Qed.

Lemma drawn_from_catalog_pair a :
  drawn_from_catalog a = true -> catalog_pair (pair_of a) = true.
Proof.
  unfold drawn_from_catalog, validateAnswer. intros H.
  destruct (find _ ASSESSMENT_QUESTIONS) as [q|] eqn:Hq; [|discriminate H].
  destruct (find _ (options q)) as [o|] eqn:Ho; [|discriminate H].
  cbn [valid validation_category validation_points andb] in H.
  apply andb_prop in H as [Hc Hp].
  apply find_some in Hq as [Hq _]. apply find_some in Ho as [Ho _].
  unfold catalog_pair. apply existsb_exists. exists q. split; [exact Hq|].
  cbn [pair_of fst snd]. rewrite Hc. cbn [andb].
  apply existsb_exists. exists o. split; [exact Ho | exact Hp].
Qed.

Lemma catalog_pairs_points answers :
  forallb catalog_pair (map pair_of answers) = true ->
  Forall (fun a => 0 <= answer_points a <= 3) answers.
Proof.
  intros H. apply Forall_forall. intros a Ha.
  rewrite forallb_forall in H.
  apply (catalog_pair_points (pair_of a)). apply H. now apply in_map.
Qed.

(** Adding a point value of the catalog to a sum of at most eleven such
    values is exact in binary64. *)
Lemma binary64_add_exact a p :
  0 <= a <= 33 -> 0 <= p <= 3 -> (of_Z a + of_Z p)%float = of_Z (a + p).
Proof.
  intros Ha Hp.
  assert (Hpc : p = 0 \/ p = 1 \/ p = 2 \/ p = 3) by lia.
  assert (Hac : a = 0 \/ a = 1 \/ a = 2 \/ a = 3 \/ a = 4 \/ a = 5 \/ a = 6 \/ a = 7 \/ a = 8 \/ a = 9 \/ a = 10 \/ a = 11 \/ a = 12 \/ a = 13 \/ a = 14 \/ a = 15 \/ a = 16 \/ a = 17 \/ a = 18 \/ a = 19 \/ a = 20 \/ a = 21 \/ a = 22 \/ a = 23 \/ a = 24 \/ a = 25 \/ a = 26 \/ a = 27 \/ a = 28 \/ a = 29 \/ a = 30 \/ a = 31 \/ a = 32 \/ a = 33) by lia.
  destruct Hpc as [-> | [-> | [-> | ->]]];
    repeat (destruct Hac as [-> | Hac]; [vm_compute; reflexivity|]);
    subst a; vm_compute; reflexivity.
Qed.

Lemma binary64_loop_exact answers : forall sums : PerCategory Z,
  (forall c, 0 <= get sums c) ->
  (forall c, get sums c + 3 * Z.of_nat (List.length answers) <= 36) ->
  Forall (fun a => 0 <= answer_points a <= 3) answers ->
  fold_left
    (fun scores answer =>
       set scores (answer_category answer)
         (get scores (answer_category answer) + of_Z (answer_points answer))%float)
    answers (PerCategory_map of_Z sums)
  = PerCategory_map of_Z
      (fold_left
         (fun scores answer =>
            set scores (answer_category answer)
              (get scores (answer_category answer) + answer_points answer))
         answers sums).
Proof.
  induction answers as [|a answers IH]; intros sums Hlo Hhi Hall; [reflexivity|].
  inversion Hall as [|? ? Ha Hrest]; subst.
  cbn [fold_left]. cbn [List.length] in Hhi.
  assert (Hstep :
    set (PerCategory_map of_Z sums) (answer_category a)
      (get (PerCategory_map of_Z sums) (answer_category a) + of_Z (answer_points a))%float
    = PerCategory_map of_Z
        (set sums (answer_category a)
           (get sums (answer_category a) + answer_points a))).
  { pose proof (Hlo (answer_category a)) as H1.
    pose proof (Hhi (answer_category a)) as H2.
    assert (Hadd : (of_Z (get sums (answer_category a)) + of_Z (answer_points a))%float
                   = of_Z (get sums (answer_category a) + answer_points a))
      by (apply binary64_add_exact; lia).
    destruct sums as [b k e s], (answer_category a);
      cbn [get set PerCategory_map at_behavioral at_knowledge at_environmental
           at_socioeconomic] in *; now rewrite Hadd. }
  rewrite Hstep. apply IH; [| |exact Hrest].
  - intros c. pose proof (Hlo c) as H1.
    destruct sums as [b k e s], (answer_category a), c;
      cbn [get set at_behavioral at_knowledge at_environmental at_socioeconomic] in *;
      lia.
  - intros c. pose proof (Hhi c) as H2.
    destruct sums as [b k e s], (answer_category a), c;
      cbn [get set at_behavioral at_knowledge at_environmental at_socioeconomic] in *;
      lia.
Qed.

(** For at most twelve answers with point values of the catalog, the sums
    the program forms in binary64 are the exact sums. *)
Lemma binary64Sums_exact answers :
  (List.length answers <= 12)%nat ->
  Forall (fun a => 0 <= answer_points a <= 3) answers ->
  binary64Sums answers = PerCategory_map of_Z (categoryTotals (map pair_of answers)).
Proof.
  intros Hlen Hall. unfold binary64Sums.
  change (mkPerCategory 0%float 0%float 0%float 0%float)
    with (PerCategory_map of_Z (mkPerCategory 0 0 0 0)).
  rewrite binary64_loop_exact;
    [| intros []; cbn [get at_behavioral at_knowledge at_environmental at_socioeconomic]; lia
     | intros []; cbn [get at_behavioral at_knowledge at_environmental at_socioeconomic]; lia
     | exact Hall].
  rewrite sum_loop. reflexivity.
Qed.

(** C7.  Scoring depends on the answers only through the multiset of their
    (category, points) pairs.  For answers whose pairs are pairs of the
    catalog (the category of a question with the points of one of its
    options), a second answer list with the same pairs up to order, and so
    any reordering of the list, gets the same outcome, every field of the
    result included; and for twelve such answers the sums the program adds
    in binary64, in list order, are the exact sums for both lists. *)
Theorem calculateRiskScore_multiset (answers answers' : list AssessmentAnswer) :
  forallb catalog_pair (map pair_of answers) = true ->
  Permutation (map pair_of answers) (map pair_of answers') ->
  calculateRiskScore ASSESSMENT_QUESTIONS answers =
  calculateRiskScore ASSESSMENT_QUESTIONS answers' /\
  (List.length answers = 12%nat ->
   binary64Sums answers =
     PerCategory_map of_Z (categoryTotals (map pair_of answers)) /\
   binary64Sums answers' = binary64Sums answers).
Proof.
  intros Hcatalog Hperm.
  assert (Hlen : List.length answers = List.length answers').
  { apply Permutation_length in Hperm. now rewrite !length_map in Hperm. }
  split.
  - unfold calculateRiskScore. rewrite Hlen.
    destruct (negb _); [reflexivity|].
    cbv zeta. rewrite !sum_loop.
    now rewrite !(categoryTotal_Permutation _ _ _ Hperm).
  - intros H12.
    assert (Hcatalog' : forallb catalog_pair (map pair_of answers') = true).
    { apply forallb_forall. intros cp Hcp. rewrite forallb_forall in Hcatalog.
      apply Hcatalog. now apply (Permutation_in cp (Permutation_sym Hperm)). }
    rewrite !binary64Sums_exact;
      try (now apply catalog_pairs_points); try lia.
    split; [reflexivity|]. unfold categoryTotals.
    now rewrite !(categoryTotal_Permutation _ _ _ Hperm).
Qed.

Lemma calculateRiskScore_multiset_witness :
  calculateRiskScore ASSESSMENT_QUESTIONS scenario_answers =
  calculateRiskScore ASSESSMENT_QUESTIONS (rev scenario_answers) /\
  binary64Sums (rev scenario_answers) = binary64Sums scenario_answers.
Proof.
  destruct (calculateRiskScore_multiset scenario_answers (rev scenario_answers))
    as [Hsame Hsums].
  - reflexivity.
  - apply Permutation_map, Permutation_rev.
  - split; [exact Hsame|]. now apply Hsums.
Defined.

(** ** Risk bands *)

(** C6.  On the integers 0..100 the classifier and the three bands agree:
    a score is classified [level] exactly when it lies in the band of
    [level], so each score lies in one band and one only; the bands are
    0..30, 31..60 and 61..100. *)
Theorem getRiskLevel_partitions (score : Z) :
  0 <= score <= 100 ->
  (forall level, getRiskLevel score = level <-> in_band level score) /\
  (getRiskLevel score = low <-> 0 <= score <= 30) /\
  (getRiskLevel score = moderate <-> 31 <= score <= 60) /\
  (getRiskLevel score = high <-> 61 <= score <= 100).
Proof.
  intros Hrange. unfold getRiskLevel.
  assert (Hbands : forall level, in_band level score <->
            match level with
            | low => 0 <= score <= 30
            | moderate => 31 <= score <= 60
            | high => 61 <= score <= 100
            end) by (intros []; reflexivity).
  assert (Hcases : (score <= 30 /\ (score <=? 30) = true) \/
                   (30 < score <= 60 /\ (score <=? 30) = false /\ (score <=? 60) = true) \/
                   (60 < score /\ (score <=? 30) = false /\ (score <=? 60) = false)).
  { destruct (Z.leb_spec score 30); [|destruct (Z.leb_spec score 60)]; lia. }
  split; [intros level; rewrite Hbands; destruct level|];
    destruct Hcases as [[? ->] | [[? [-> ->]] | [? [-> ->]]]];
    repeat split; intros; first [lia | discriminate | reflexivity].
Qed.

Lemma getRiskLevel_partitions_witness :
  (forall level, getRiskLevel 31 = level <-> in_band level 31) /\
  (getRiskLevel 31 = low <-> 0 <= 31 <= 30) /\
  (getRiskLevel 31 = moderate <-> 31 <= 31 <= 60) /\
  (getRiskLevel 31 = high <-> 61 <= 31 <= 100).
Proof.
  apply (getRiskLevel_partitions 31). lia.
Defined.

(** C10.  The classifier answers on every integer: a score of at most 30,
    negative ones included, is [low]; a score above 60, also above 100, is
    [high]; the scores in between are [moderate]. *)
Theorem getRiskLevel_total (score : Z) :
  (score <= 30 -> getRiskLevel score = low) /\
  (30 < score <= 60 -> getRiskLevel score = moderate) /\
  (60 < score -> getRiskLevel score = high) /\
  (getRiskLevel score = low \/ getRiskLevel score = moderate \/
   getRiskLevel score = high).
Proof.
  unfold getRiskLevel.
  destruct (Z.leb_spec score 30); [|destruct (Z.leb_spec score 60)];
    repeat split; intros; try lia; auto.
Qed.

Lemma getRiskLevel_total_witness :
  getRiskLevel (-5) = low /\ getRiskLevel 45 = moderate /\ getRiskLevel 250 = high.
Proof.
  destruct (getRiskLevel_total (-5)) as [Hlow _].
  destruct (getRiskLevel_total 45) as [_ [Hmoderate _]].
  destruct (getRiskLevel_total 250) as [_ [_ [Hhigh _]]].
  split; [|split]; [apply Hlow | apply Hmoderate | apply Hhigh]; lia.
Defined.

(** ** Highest-risk categories *)

(** The catalog lists its questions category by category, in the order in
    which the keys of a per-category object are enumerated. *)
Lemma catalog_category_order :
  map category ASSESSMENT_QUESTIONS =
  (repeat behavioral 4 ++ repeat knowledge 3 ++
   repeat environmental 3 ++ repeat socioeconomic 2)%list
  /\ Object_keys = [behavioral; knowledge; environmental; socioeconomic].
Proof. split; reflexivity. Qed.

Lemma Math_max_values (p : PerCategory Z) :
  Math_max (Object_values p) =
  Z.max (Z.max (Z.max (at_behavioral p) (at_knowledge p)) (at_environmental p))
    (at_socioeconomic p).
Proof. destruct p; reflexivity. Qed.

Lemma findHighestRiskCategories_filter (p : PerCategory Z) :
  findHighestRiskCategories p =
  if Math_max (Object_values p) =? 0 then []
  else map Category_name
         (filter (fun c => get p c =? Math_max (Object_values p)) Object_keys).
Proof.
  unfold findHighestRiskCategories.
  destruct (Math_max (Object_values p) =? 0); [reflexivity|].
  generalize (Math_max (Object_values p)); intros m.
  destruct p as [a b c d]; cbn.
  destruct (a =? m), (b =? m), (c =? m), (d =? m); reflexivity.
Qed.

(** C5.  With [m] the largest of the four percentages: when [m] is 0 no
    category is returned; otherwise the categories returned are those whose
    percentage is [m], in catalog order; when two categories share the
    largest percentage and the other two are below it, the result is those
    two, the earlier one first. *)
Theorem findHighestRiskCategories_ties (p : PerCategory Z) :
  let m := Math_max (Object_values p) in
  ((forall c, get p c <= m) /\ (exists c, get p c = m)) /\
  (m = 0 -> findHighestRiskCategories p = []) /\
  (m <> 0 ->
   findHighestRiskCategories p =
   map Category_name (filter (fun c => get p c =? m) Object_keys)) /\
  (forall c1 c2,
     (Category_index c1 < Category_index c2)%nat ->
     m <> 0 -> get p c1 = m -> get p c2 = m ->
     (forall c, c <> c1 -> c <> c2 -> get p c < m) ->
     findHighestRiskCategories p = [Category_name c1; Category_name c2]).
Proof.
  intros m.
  assert (Hm : m = Z.max (Z.max (Z.max (at_behavioral p) (at_knowledge p))
                            (at_environmental p)) (at_socioeconomic p))
    by apply Math_max_values.
  assert (Hzero : m = 0 -> findHighestRiskCategories p = []).
  { intros H0. rewrite findHighestRiskCategories_filter. fold m. now rewrite H0. }
  assert (Hfilter : m <> 0 ->
            findHighestRiskCategories p =
            map Category_name (filter (fun c => get p c =? m) Object_keys)).
  { intros Hne. rewrite findHighestRiskCategories_filter. fold m.
    apply Z.eqb_neq in Hne. now rewrite Hne. }
  split; [split|split; [exact Hzero|split; [exact Hfilter|]]].
  - intros []; cbn; lia.
  - assert (Hwhich : at_behavioral p = m \/ at_knowledge p = m \/
                     at_environmental p = m \/ at_socioeconomic p = m) by lia.
    destruct Hwhich as [H | [H | [H | H]]];
      [exists behavioral | exists knowledge | exists environmental
      | exists socioeconomic]; exact H.
  - intros c1 c2 Hlt Hne H1 H2 Hothers.
    rewrite (Hfilter Hne). clear Hzero Hfilter Hm.
    pose proof (Hothers behavioral) as Hb.
    pose proof (Hothers knowledge) as Hk.
    pose proof (Hothers environmental) as He.
    pose proof (Hothers socioeconomic) as Hs.
    generalize dependent m. intros m. destruct p as [a b c d].
    destruct c1, c2; cbn in Hlt; try lia; cbn; intros;
      repeat match goal with
             | H : ?x <> ?y -> _ |- _ =>
                 first [ specialize (H ltac:(discriminate)) | clear H ]
             end;
      subst;
      repeat match goal with
             | |- context [?x =? ?y] => destruct (Z.eqb_spec x y)
             end;
      first [reflexivity | lia].
Qed.

Lemma findHighestRiskCategories_ties_witness :
  findHighestRiskCategories (mkPerCategory 0 0 0 0) = [] /\
  findHighestRiskCategories (mkPerCategory 27 50 50 25) =
    ["knowledge"; "environmental"].
Proof.
  split.
  - apply (findHighestRiskCategories_ties (mkPerCategory 0 0 0 0)). reflexivity.
  - apply (findHighestRiskCategories_ties (mkPerCategory 27 50 50 25))
      with (c1 := knowledge) (c2 := environmental).
    + cbn. lia.
    + discriminate.
    + reflexivity.
    + reflexivity.
    + intros [] Hk He; cbn; first [lia | contradiction].
Defined.

(** ** The answer validator *)

Lemma find_none_iff {A} (f : A -> bool) (l : list A) :
  find f l = None <-> forall x, In x l -> f x = false.
Proof.
  split.
  - intros H x. now apply find_none.
  - induction l as [|y l IH]; intros H; [reflexivity|]. cbn.
    rewrite (H y (or_introl eq_refl)). apply IH.
    intros x Hx. apply H. now right.
Qed.

(** In a list whose keys are pairwise distinct, looking a member up by its
    key finds that member. *)
Lemma find_by_key {A} (key : A -> string) (l : list A) (x : A) :
  NoDup (map key l) -> In x l ->
  find (fun y => String.eqb (key y) (key x)) l = Some x.
Proof.
  induction l as [|y l IH]; intros Hnodup Hin; [destruct Hin|].
  cbn in Hnodup. inversion Hnodup as [|? ? Hnotin Hrest]; subst.
  cbn. destruct (String.eqb_spec (key y) (key x)) as [Heq|Hne].
  - destruct Hin as [->|Hin]; [reflexivity|].
    exfalso. apply Hnotin. rewrite Heq. now apply in_map.
  - destruct Hin as [->|Hin]; [congruence|]. now apply IH.
Qed.

Section Validator.

Variable catalog : list AssessmentQuestion.
Hypothesis ids_distinct : NoDup (map id catalog).
Hypothesis labels_distinct :
  forall q, In q catalog -> NoDup (map text (options q)).

Lemma validateAnswer_unknown_question questionId answerText :
  (forall q, In q catalog -> id q <> questionId) ->
  validateAnswer catalog questionId answerText =
  mkValidation false None None (Some "Question not found").
Proof.
  intros Hnone. unfold validateAnswer.
  replace (find _ catalog) with (@None AssessmentQuestion); [reflexivity|].
  symmetry. apply find_none_iff. intros q Hq.
  apply String.eqb_neq. now apply Hnone.
Qed.

Lemma validateAnswer_invalid_option q answerText :
  In q catalog ->
  (forall o, In o (options q) -> text o <> answerText) ->
  validateAnswer catalog (id q) answerText =
  mkValidation false None None
    (Some ("Invalid answer option. Valid options: " ++
           String.concat ", " (map text (options q)))).
Proof.
  intros Hq Hnone. unfold validateAnswer.
  rewrite (find_by_key id catalog q ids_distinct Hq).
  replace (find _ (options q)) with (@None AssessmentOption); [reflexivity|].
  symmetry. apply find_none_iff. intros o Ho.
  apply String.eqb_neq. now apply Hnone.
Qed.

Lemma validateAnswer_valid q o :
  In q catalog -> In o (options q) ->
  validateAnswer catalog (id q) (text o) =
  mkValidation true (Some (points o)) (Some (category q)) None.
Proof.
  intros Hq Ho. unfold validateAnswer.
  rewrite (find_by_key id catalog q ids_distinct Hq).
  now rewrite (find_by_key text (options q) o (labels_distinct q Hq) Ho).
Qed.

End Validator.

Lemma catalog_ids_distinct : NoDup (map id ASSESSMENT_QUESTIONS).
Proof. cbn. distinct_strings. Qed.

Lemma catalog_labels_distinct q :
  In q ASSESSMENT_QUESTIONS -> NoDup (map text (options q)).
Proof.
  cbn. intros H.
  repeat (destruct H as [<-|H]; [cbn; distinct_strings|]).
  destruct H.
Qed.

(** C8.  On the catalog, for every identifier and label: when no question
    has the identifier the validator reports an unknown question; when the
    question exists and none of its options has the label it reports an
    invalid option and lists all the labels of that question; when an
    option of the question has the label it accepts and returns the points
    of that option and the category of the question.  The validator is a
    function of its two arguments and touches no store. *)
Theorem validateAnswer_contract (questionId answerText : string) :
  ((forall q, In q ASSESSMENT_QUESTIONS -> id q <> questionId) ->
   validateAnswer ASSESSMENT_QUESTIONS questionId answerText =
   mkValidation false None None (Some "Question not found")) /\
  (forall q, In q ASSESSMENT_QUESTIONS -> id q = questionId ->
     (forall o, In o (options q) -> text o <> answerText) ->
     validateAnswer ASSESSMENT_QUESTIONS questionId answerText =
     mkValidation false None None
       (Some ("Invalid answer option. Valid options: " ++
              String.concat ", " (map text (options q))))) /\
  (forall q o, In q ASSESSMENT_QUESTIONS -> id q = questionId ->
     In o (options q) -> text o = answerText ->
     validateAnswer ASSESSMENT_QUESTIONS questionId answerText =
     mkValidation true (Some (points o)) (Some (category q)) None).
Proof.
  split; [|split].
  - apply validateAnswer_unknown_question.
  - intros q Hq <- Hnone.
    now apply validateAnswer_invalid_option; [apply catalog_ids_distinct| |].
  - intros q o Hq <- Ho <-.
    now apply validateAnswer_valid;
      [apply catalog_ids_distinct | apply catalog_labels_distinct | |].
Qed.

Lemma validateAnswer_contract_witness :
  validateAnswer ASSESSMENT_QUESTIONS "behavioral_9" "Never" =
    mkValidation false None None (Some "Question not found") /\
  validateAnswer ASSESSMENT_QUESTIONS "behavioral_1" "Always" =
    mkValidation false None None
      (Some "Invalid answer option. Valid options: Never, Sometimes, Often") /\
  validateAnswer ASSESSMENT_QUESTIONS "behavioral_1" "Often" =
    mkValidation true (Some 3) (Some behavioral) None.
Proof.
  split; [|split].
  - apply (validateAnswer_contract "behavioral_9" "Never").
    cbn. intros q H.
    repeat (destruct H as [<-|H]; [discriminate|]). destruct H.
  - apply (validateAnswer_contract "behavioral_1" "Always")
      with (q := mkQuestion "behavioral_1" 1 behavioral
                   "Do you buy antibiotics without a doctor's prescription?"
                   [mkOption "Never" 0; mkOption "Sometimes" 2; mkOption "Often" 3]).
    + cbn. auto.
    + reflexivity.
    + cbn. intros o H.
      repeat (destruct H as [<-|H]; [discriminate|]). destruct H.
  - apply (validateAnswer_contract "behavioral_1" "Often")
      with (q := mkQuestion "behavioral_1" 1 behavioral
                   "Do you buy antibiotics without a doctor's prescription?"
                   [mkOption "Never" 0; mkOption "Sometimes" 2; mkOption "Often" 3])
           (o := mkOption "Often" 3).
    + cbn. auto.
    + reflexivity.
    + cbn. auto.
    + reflexivity.
Defined.

(** ** Point values and the question procedures *)

Lemma publicOptions_labels q : map option_text (publicOptions q) = map text (options q).
Proof.
  unfold publicOptions. rewrite map_map. reflexivity.
Qed.

Lemma same_but_points_publicOptions q q' :
  same_but_points q q' -> publicOptions q = publicOptions q'.
Proof.
  intros (_ & _ & _ & _ & Hlabels). unfold publicOptions.
  rewrite <- (map_map text mkPublicOption (options q)).
  rewrite <- (map_map text mkPublicOption (options q')).
  now rewrite Hlabels.
Qed.

Lemma repriced_getQuestionByNumber catalog catalog' n :
  repriced catalog catalog' ->
  match getQuestionByNumber catalog n, getQuestionByNumber catalog' n with
  | Some q, Some q' => same_but_points q q'
  | None, None => True
  | _, _ => False
  end.
Proof.
  unfold getQuestionByNumber.
  induction 1 as [|q q' l l' Hq _ IH]; cbn; [exact I|].
  destruct Hq as (Hid & Hnum & Hrest). rewrite <- Hnum.
  destruct (number q =? n); [|exact IH].
  repeat split; tauto.
Qed.

Lemma repriced_getQuestions catalog catalog' :
  repriced catalog catalog' -> getQuestions catalog = getQuestions catalog'.
Proof.
  intros H. unfold getQuestions.
  rewrite (Forall2_length H). f_equal.
  induction H as [|q q' l l' Hq _ IH]; [reflexivity|].
  cbn [map]. f_equal; [|exact IH].
  fold (publicOptions q) (publicOptions q').
  rewrite (same_but_points_publicOptions q q' Hq).
  destruct Hq as (-> & -> & -> & -> & _). reflexivity.
Qed.

Lemma repriced_getQuestion catalog catalog' sessionId n db :
  repriced catalog catalog' ->
  getQuestion catalog sessionId n db = getQuestion catalog' sessionId n db.
Proof.
  intros H. unfold getQuestion, with_input.
  destruct (_ && _); [|reflexivity].
  unfold try_catch, bind, getAssessmentSession.
  destruct (find _ (assessments db)); [|reflexivity].
  pose proof (repriced_getQuestionByNumber catalog catalog' n H) as Hq.
  rewrite (Forall2_length H).
  destruct (getQuestionByNumber catalog n) as [q|],
           (getQuestionByNumber catalog' n) as [q'|]; try contradiction;
    [|reflexivity].
  fold (publicOptions q) (publicOptions q').
  rewrite (same_but_points_publicOptions q q' Hq).
  destruct Hq as (-> & -> & -> & -> & _). reflexivity.
Qed.

(** C9.  What [getQuestion] and [getQuestions] return carries, for each
    option, its label and no point value, and does not depend on the point
    values in the catalog: on any store, session and ordinal the two
    procedures return the same on a catalog and on the catalog with its
    point values changed; and for a stored session and an ordinal from 1
    to 12 [getQuestion] returns the question at that ordinal with exactly
    the labels of its options. *)
Theorem question_procedures_hide_points :
  (forall catalog', repriced ASSESSMENT_QUESTIONS catalog' ->
     (forall sessionId n db,
        getQuestion ASSESSMENT_QUESTIONS sessionId n db =
        getQuestion catalog' sessionId n db) /\
     getQuestions ASSESSMENT_QUESTIONS = getQuestions catalog') /\
  (forall sessionId n db session,
     sessionId <> "" ->
     find (fun a => String.eqb (assessment_sessionId a) sessionId)
       (assessments db) = Some session ->
     1 <= n <= 12 ->
     exists q,
       nth_error ASSESSMENT_QUESTIONS (Z.to_nat (n - 1)) = Some q /\
       number q = n /\
       getQuestion ASSESSMENT_QUESTIONS sessionId n db =
       (Returned (mkQuestionView (id q) n (category q) (question q)
                    (publicOptions q) 12), db) /\
       map option_text (publicOptions q) = map text (options q)) /\
  map entry_options (questions (getQuestions ASSESSMENT_QUESTIONS)) =
  map publicOptions ASSESSMENT_QUESTIONS.
Proof.
  split; [|split].
  - intros catalog' H. split.
    + intros. now apply repriced_getQuestion.
    + now apply repriced_getQuestions.
  - intros sessionId n db session Hid Hfind Hn.
    unfold getQuestion, with_input, zod_string_min1.
    apply String.eqb_neq in Hid. rewrite Hid.
    destruct (Z.leb_spec 1 n); [|lia]. destruct (Z.leb_spec n 12); [|lia].
    cbn [negb andb]. unfold try_catch, bind, getAssessmentSession.
    rewrite Hfind.
    assert (Hcases : n = 1 \/ n = 2 \/ n = 3 \/ n = 4 \/ n = 5 \/ n = 6 \/
                     n = 7 \/ n = 8 \/ n = 9 \/ n = 10 \/ n = 11 \/ n = 12) by lia.
    repeat (destruct Hcases as [->|Hcases];
            [eexists; repeat split; reflexivity|]).
    subst n. eexists; repeat split; reflexivity.
  - unfold getQuestions. cbn [questions]. rewrite map_map. reflexivity.
Qed.

Lemma question_procedures_hide_points_witness :
  getQuestions ASSESSMENT_QUESTIONS = getQuestions catalog_all_100 /\
  exists q,
    nth_error ASSESSMENT_QUESTIONS 2 = Some q /\
    getQuestion ASSESSMENT_QUESTIONS "s" 3
      (mkDb [mkAssessment "s" in_progress None None] [] []) =
    (Returned (mkQuestionView (id q) 3 (category q) (question q)
                 (publicOptions q) 12),
     mkDb [mkAssessment "s" in_progress None None] [] []).
Proof.
  destruct question_procedures_hide_points as (Hhide & Hview & _).
  split.
  - apply (Hhide catalog_all_100).
    repeat (constructor; [repeat split|]). constructor.
  - destruct (Hview "s" 3 (mkDb [mkAssessment "s" in_progress None None] [] [])
                (mkAssessment "s" in_progress None None))
      as (q & Hnth & _ & Hget & _).
    + discriminate.
    + reflexivity.
    + lia.
    + exists q. split; [exact Hnth | exact Hget].
Defined.

(** ** Sessions *)

(** [submitAssessment] never reads the status of the session: whatever the
    store and the session, it does not throw the error with which
    [submitResponse] turns a finished session away. *)
Lemma submitAssessment_no_status_guard sessionId db :
  fst (submitAssessment ASSESSMENT_QUESTIONS sessionId db) <>
  Thrown (Error "Assessment already completed").
Proof.
  unfold submitAssessment, with_input.
  destruct (zod_string_min1 sessionId); [|discriminate].
  unfold try_catch, bind, getAssessmentSession, getAssessmentResponses, throw.
  destruct (find _ (assessments db)); [|discriminate].
  destruct (negb _) eqn:Hlen; [discriminate|].
  apply negb_false_iff, Nat.eqb_eq in Hlen.
  rewrite <- (length_map (fun r => mkAnswer (response_questionId r)
                (response_category r) (response_answerText r) (response_points r)))
    in Hlen.
  rewrite (calculateRiskScore_totals _ _ Hlen).
  unfold saveAssessmentResult, completeAssessment, ret.
  destruct (existsb _ (assessmentResults db)); discriminate.
Qed.

(** C2 (the program departs from it).  After session ["s"] has been
    finalized its status is [completed] and its result is stored; asking for
    the result again goes through the count check and the scoring and stops
    only at the storage layer, on the UNIQUE constraint of the results table,
    not with the error for a finished session, which [submitResponse] does
    give on the same store. *)
Theorem second_finalize_reaches_storage :
  let db := run finalized_once in
  session_status "s" db = Some completed /\
  List.length (assessmentResults db) = 1%nat /\
  submitAssessment ASSESSMENT_QUESTIONS "s" db =
    (Thrown (DuplicateEntry "assessmentResults_sessionId_unique"), db) /\
  fst (submitAssessment ASSESSMENT_QUESTIONS "s" db) <>
    Thrown (Error "Assessment already completed") /\
  fst (submitResponse ASSESSMENT_QUESTIONS "s" "behavioral_1" "Never" db) =
    Thrown (Error "Assessment already completed").
Proof.
  cbv zeta. split; [|split; [|split; [|split]]].
  - vm_compute. reflexivity.
  - vm_compute. reflexivity.
  - vm_compute. reflexivity.
  - apply submitAssessment_no_status_guard.
  - vm_compute. reflexivity.
Qed.

(** C3 (the program departs from it).  Twelve responses to one question are
    enough for the finalization to succeed: the store then holds twelve rows
    for session ["s"], all on ["behavioral_1"], and [submitAssessment]
    returns a result and completes the session.  With eleven rows it throws
    the count error. *)
Theorem finalize_counts_rows_only :
  let db := run twelve_often in
  map response_questionId (assessmentResponses db) = repeat "behavioral_1" 12 /\
  (exists r db',
     submitAssessment ASSESSMENT_QUESTIONS "s" db = (Returned r, db') /\
     session_status "s" db' = Some completed /\
     categoryScores r = mkPerCategory 36 0 0 0) /\
  fst (submitAssessment ASSESSMENT_QUESTIONS "s" (run (removelast twelve_often))) =
    Thrown (Error "Incomplete assessment. Expected 12 responses, got 11").
Proof.
  cbv zeta. split; [|split].
  - vm_compute. reflexivity.
  - do 2 eexists. split; [vm_compute; reflexivity|].
    split; vm_compute; reflexivity.
  - vm_compute. reflexivity.
Qed.

(** C4 (the program departs from it).  The result stored for the session
    that answered the first question twelve times has a behavioral sum of
    36, above the category maximum 11, and a behavioral percentage of 327,
    above 100. *)
Theorem stored_result_out_of_range :
  let db := run (twelve_often ++ [SubmitAssessment "s"])%list in
  exists row,
    assessmentResults db = [row] /\
    result_sessionId row = "s" /\
    get (result_categoryScores row) behavioral = 36 /\
    get MAX_POINTS_PER_CATEGORY behavioral = 11 /\
    get (result_categoryPercentages row) behavioral = 327.
Proof.
  cbv zeta. eexists. split; [vm_compute; reflexivity|].
  repeat split; vm_compute; reflexivity.
Qed.

(** ** Ranges when every question is answered once *)

Lemma Category_eqb_eq a b : Category_eqb a b = true <-> a = b.
Proof. destruct a, b; cbn; split; congruence. Qed.

Lemma catalog_points_range q o :
  In q ASSESSMENT_QUESTIONS -> In o (options q) -> 0 <= points o <= question_max q.
Proof.
  cbn. intros Hq.
  repeat (destruct Hq as [<-|Hq];
          [cbn; intros Ho;
           repeat (destruct Ho as [<-|Ho]; [cbn; lia|]); destruct Ho|]).
  destruct Hq.
Qed.

(** The maxima declared per category are the sums of the question maxima. *)
Lemma id_bound_catalog c :
  fold_right Z.add 0 (map (id_bound c) (map id ASSESSMENT_QUESTIONS)) =
  get MAX_POINTS_PER_CATEGORY c.
Proof. destruct c; vm_compute; reflexivity. Qed.

Lemma drawn_answer_bound a c :
  drawn_from_catalog a = true ->
  0 <= (if Category_eqb (answer_category a) c then answer_points a else 0)
    <= id_bound c (questionId a).
Proof.
  unfold drawn_from_catalog, validateAnswer, id_bound, getQuestionById.
  destruct (find _ ASSESSMENT_QUESTIONS) as [q|] eqn:Hq; [|discriminate].
  destruct (find _ (options q)) as [o|] eqn:Ho; [|discriminate].
  cbn. intros H. apply andb_prop in H as [Hc Hp].
  apply Category_eqb_eq in Hc. apply Z.eqb_eq in Hp. rewrite <- Hc, <- Hp.
  apply find_some in Hq as [Hq _]. apply find_some in Ho as [Ho _].
  pose proof (catalog_points_range q o Hq Ho).
  destruct (Category_eqb (category q) c); lia.
Qed.

Lemma drawn_total_bound answers c :
  forallb drawn_from_catalog answers = true ->
  0 <= categoryTotal c (map pair_of answers)
    <= fold_right Z.add 0 (map (id_bound c) (map questionId answers)).
Proof.
  induction answers as [|a answers IH]; intros Hall.
  - cbn. unfold categoryTotal. cbn. lia.
  - cbn in Hall. apply andb_prop in Hall as [Ha Hall].
    cbn [map fold_right]. rewrite categoryTotal_cons.
    pose proof (drawn_answer_bound a c Ha). specialize (IH Hall).
    change (fst (pair_of a)) with (answer_category a).
    change (snd (pair_of a)) with (answer_points a). lia.
Qed.

Lemma sum_Permutation {A} (f : A -> Z) l l' :
  Permutation l l' ->
  fold_right Z.add 0 (map f l) = fold_right Z.add 0 (map f l').
Proof.
  induction 1; cbn; lia.
Qed.

Lemma calculateCategoryPercentage_range c s :
  0 <= s <= get MAX_POINTS_PER_CATEGORY c ->
  0 <= calculateCategoryPercentage s c <= 100.
Proof.
  destruct c; cbn [get MAX_POINTS_PER_CATEGORY at_behavioral at_knowledge
                   at_environmental at_socioeconomic]; intros Hs.
  - assert (H : s = 0 \/ s = 1 \/ s = 2 \/ s = 3 \/ s = 4 \/ s = 5 \/ s = 6 \/
                s = 7 \/ s = 8 \/ s = 9 \/ s = 10 \/ s = 11) by lia.
    repeat (destruct H as [->|H]; [vm_compute; split; discriminate|]).
    subst s. vm_compute; split; discriminate.
  - assert (H : s = 0 \/ s = 1 \/ s = 2 \/ s = 3 \/ s = 4) by lia.
    repeat (destruct H as [->|H]; [vm_compute; split; discriminate|]).
    subst s. vm_compute; split; discriminate.
  - assert (H : s = 0 \/ s = 1 \/ s = 2 \/ s = 3 \/ s = 4 \/ s = 5 \/ s = 6) by lia.
    repeat (destruct H as [->|H]; [vm_compute; split; discriminate|]).
    subst s. vm_compute; split; discriminate.
  - assert (H : s = 0 \/ s = 1 \/ s = 2 \/ s = 3 \/ s = 4) by lia.
    repeat (destruct H as [->|H]; [vm_compute; split; discriminate|]).
    subst s. vm_compute; split; discriminate.
Qed.

(** When the twelve answers are one per catalog question, every category
    sum is between 0 and the category maximum and every percentage between
    0 and 100. *)
Theorem one_per_question_in_range (answers : list AssessmentAnswer) :
  one_per_question answers ->
  exists r,
    calculateRiskScore ASSESSMENT_QUESTIONS answers = Returned r /\
    forall c,
      0 <= get (categoryScores r) c <= get MAX_POINTS_PER_CATEGORY c /\
      0 <= get (categoryPercentages r) c <= 100.
Proof.
  intros [Hids Hdrawn].
  assert (Hlen : List.length answers = List.length ASSESSMENT_QUESTIONS).
  { apply Permutation_length in Hids. now rewrite !length_map in Hids. }
  rewrite (calculateRiskScore_totals _ _ Hlen). eexists. split; [reflexivity|].
  assert (Hsum : forall c,
            0 <= categoryTotal c (map pair_of answers)
              <= get MAX_POINTS_PER_CATEGORY c).
  { intros c. rewrite <- id_bound_catalog.
    rewrite <- (sum_Permutation (id_bound c) _ _ Hids).
    now apply drawn_total_bound. }
  intros c. split.
  - destruct c; apply Hsum.
  - destruct c; cbn [scoreOf categoryPercentages get at_behavioral at_knowledge
                     at_environmental at_socioeconomic categoryTotals];
      apply calculateCategoryPercentage_range, Hsum.
Qed.

Lemma one_per_question_in_range_witness :
  exists r,
    calculateRiskScore ASSESSMENT_QUESTIONS scenario_answers = Returned r /\
    forall c,
      0 <= get (categoryScores r) c <= get MAX_POINTS_PER_CATEGORY c /\
      0 <= get (categoryPercentages r) c <= 100.
Proof.
  apply (one_per_question_in_range scenario_answers).
  split; [apply Permutation_refl | reflexivity].
Defined.

(** ** Reachable stores *)

Lemma submitResponse_validated s q a db :
  validated db -> validated (snd (submitResponse ASSESSMENT_QUESTIONS s q a db)).
Proof.
  intros Hdb. unfold submitResponse, with_input.
  destruct (_ && _); [|exact Hdb].
  unfold try_catch, bind, getAssessmentSession, throw.
  destruct (find _ (assessments db)) as [session|]; [|exact Hdb].
  destruct (status session); try exact Hdb.
  destruct (valid (validateAnswer ASSESSMENT_QUESTIONS q a)) eqn:Hvalid;
    [|exact Hdb].
  cbn [negb].
  destruct (validation_category _) as [c|] eqn:Hc; [|exact Hdb].
  destruct (validation_points _) as [p|] eqn:Hp; [|exact Hdb].
  cbn. apply Forall_app. split; [exact Hdb|].
  constructor; [|constructor].
  unfold drawn_from_catalog, answer_of. cbn.
  rewrite Hvalid, Hc, Hp. cbn.
  rewrite Z.eqb_refl. destruct c; reflexivity.
Qed.

Lemma submitAssessment_responses s db :
  assessmentResponses (snd (submitAssessment ASSESSMENT_QUESTIONS s db)) =
  assessmentResponses db.
Proof.
  unfold submitAssessment, with_input.
  destruct (zod_string_min1 s); [|reflexivity].
  unfold try_catch, bind, getAssessmentSession, getAssessmentResponses, throw.
  destruct (find _ (assessments db)); [|reflexivity].
  destruct (negb _); [reflexivity|].
  destruct (calculateRiskScore _ _); [|reflexivity].
  unfold saveAssessmentResult, completeAssessment, ret.
  destruct (existsb _ (assessmentResults db)); reflexivity.
Qed.

Lemma step_validated c db : validated db -> validated (step c db).
Proof.
  intros Hdb. destruct c as [s ua ip | s n | s q t | s | s]; cbn [step].
  - unfold createSession, try_catch, bind, createAssessmentSession.
    destruct (existsb _ (assessments db)); exact Hdb.
  - unfold getQuestion, with_input.
    destruct (_ && _); [|exact Hdb].
    unfold try_catch, bind, getAssessmentSession.
    destruct (find _ (assessments db)); [|exact Hdb].
    destruct (getQuestionByNumber _ _); exact Hdb.
  - now apply submitResponse_validated.
  - unfold validated. now rewrite submitAssessment_responses.
  - unfold getResult, with_input.
    destruct (zod_string_min1 s); [|exact Hdb].
    unfold try_catch, bind, getAssessmentResult.
    destruct (find _ (assessmentResults db)); exact Hdb.
Qed.

Lemma run_validated cs : validated (run cs).
Proof.
  unfold run.
  assert (H : forall db, validated db ->
                validated (fold_left (fun db c => step c db) cs db)).
  { induction cs as [|c cs IH]; intros db Hdb; [exact Hdb|].
    cbn. apply IH. now apply step_validated. }
  apply H. constructor.
Qed.

Lemma drawn_id_in_catalog a :
  drawn_from_catalog a = true -> In (questionId a) (map id ASSESSMENT_QUESTIONS).
Proof.
  unfold drawn_from_catalog, validateAnswer.
  destruct (find _ ASSESSMENT_QUESTIONS) as [q|] eqn:Hq; [|discriminate].
  intros _. apply find_some in Hq as [Hq Hid].
  apply String.eqb_eq in Hid. rewrite <- Hid. now apply in_map.
Qed.

(** X24.  On a store reached by the procedures, a finalization that
    succeeds on a session whose rows answer pairwise distinct questions
    returns, and stores, sums between 0 and the category maxima and
    percentages between 0 and 100. *)
Theorem reachable_distinct_in_range cs sessionId r db' :
  submitAssessment ASSESSMENT_QUESTIONS sessionId (run cs) = (Returned r, db') ->
  NoDup (map response_questionId (responses_of sessionId (run cs))) ->
  (forall c,
     0 <= get (categoryScores r) c <= get MAX_POINTS_PER_CATEGORY c /\
     0 <= get (categoryPercentages r) c <= 100) /\
  exists row,
    In row (assessmentResults db') /\
    result_sessionId row = sessionId /\
    result_categoryScores row = categoryScores r /\
    result_categoryPercentages row = categoryPercentages r.
Proof.
  pose proof (run_validated cs) as Hvalid. revert Hvalid.
  generalize (run cs). intros db Hvalid Hsubmit Hnodup.
  unfold submitAssessment, with_input in Hsubmit.
  destruct (zod_string_min1 sessionId); [|discriminate].
  unfold try_catch, bind, getAssessmentSession, getAssessmentResponses, throw
    in Hsubmit.
  destruct (find _ (assessments db)); [|discriminate].
  fold (responses_of sessionId db) in Hsubmit.
  destruct (negb _) eqn:Hlen; [discriminate|].
  apply negb_false_iff, Nat.eqb_eq in Hlen.
  set (answers := map _ (responses_of sessionId db)) in Hsubmit.
  assert (Hanswers : one_per_question answers).
  { assert (Hdrawn : Forall (fun a => drawn_from_catalog a = true) answers).
    { apply Forall_map. unfold responses_of.
      apply Forall_forall. intros x Hx. apply filter_In in Hx as [Hx _].
      unfold validated in Hvalid. rewrite Forall_forall in Hvalid.
      exact (Hvalid x Hx). }
    assert (Hids : map questionId answers =
                   map response_questionId (responses_of sessionId db)).
    { unfold answers. rewrite map_map. reflexivity. }
    split.
    - rewrite Hids. apply NoDup_Permutation_bis; [exact Hnodup| |].
      + rewrite !length_map. rewrite Hlen. apply Nat.le_refl.
      + rewrite <- Hids. intros x Hx. apply in_map_iff in Hx as (ans & <- & Hans).
        rewrite Forall_forall in Hdrawn. now apply drawn_id_in_catalog, Hdrawn.
    - apply forallb_forall. now apply Forall_forall. }
  destruct (one_per_question_in_range answers Hanswers) as (r0 & Hr0 & Hrange).
  rewrite Hr0 in Hsubmit.
  unfold saveAssessmentResult, completeAssessment, ret in Hsubmit.
  destruct (existsb _ (assessmentResults db)); [discriminate|].
  injection Hsubmit as <- <-. split; [exact Hrange|].
  eexists. split; [cbn; apply in_or_app; right; left; reflexivity|].
  repeat split.
Qed.

Lemma reachable_distinct_in_range_witness :
  exists r,
    fst (submitAssessment ASSESSMENT_QUESTIONS "s" (run answered_once)) = Returned r /\
    forall c,
      0 <= get (categoryScores r) c <= get MAX_POINTS_PER_CATEGORY c /\
      0 <= get (categoryPercentages r) c <= 100.
Proof.
  destruct (submitAssessment ASSESSMENT_QUESTIONS "s" (run answered_once))
    as [[r|f] db'] eqn:Hsubmit; [|vm_compute in Hsubmit; discriminate].
  exists r. split; [reflexivity|].
  apply (reachable_distinct_in_range answered_once "s" r db' Hsubmit).
  vm_compute. distinct_strings.
Defined.

(** * Properties of the score, the catalog and the procedures *)

(** ** The score on answer sets with one answer per question *)

Lemma upto_In n x : 0 <= x <= n -> In x (upto n).
Proof.
  intros Hx. unfold upto. apply in_map_iff. exists (Z.to_nat x).
  split; [lia|]. apply in_seq. lia.
Qed.

Lemma in_range_all_sums sums : in_range sums -> In sums all_sums.
Proof.
  intros H. destruct sums as [b k e s].
  pose proof (H behavioral) as Hb. pose proof (H knowledge) as Hk.
  pose proof (H environmental) as He. pose proof (H socioeconomic) as Hs.
  cbn in Hb, Hk, He, Hs. unfold all_sums.
  apply in_flat_map. exists b. split; [apply upto_In; cbn; lia|].
  apply in_flat_map. exists k. split; [apply upto_In; cbn; lia|].
  apply in_flat_map. exists e. split; [apply upto_In; cbn; lia|].
  apply in_map_iff. exists s. split; [reflexivity|apply upto_In; cbn; lia].
Qed.

Lemma all_sums_score_check : forallb score_check all_sums = true.
Proof. vm_compute. reflexivity. Qed.

Lemma all_sums_extremes_check : forallb extremes_check all_sums = true.
Proof. vm_compute. reflexivity. Qed.

Lemma all_sums_step_check : forallb step_check all_sums = true.
Proof. vm_compute. reflexivity. Qed.

Lemma checked_in_range (check : PerCategory Z -> bool) sums :
  forallb check all_sums = true -> in_range sums -> check sums = true.
Proof.
  intros Hall Hsums. rewrite forallb_forall in Hall.
  now apply Hall, in_range_all_sums.
Qed.

Lemma one_per_question_scoreOf answers :
  one_per_question answers ->
  calculateRiskScore ASSESSMENT_QUESTIONS answers =
    Returned (scoreOf (categoryTotals (map pair_of answers))) /\
  in_range (categoryTotals (map pair_of answers)).
Proof.
  intros H. destruct (one_per_question_in_range answers H) as (r & Hr & Hrange).
  assert (Hlen : List.length answers = List.length ASSESSMENT_QUESTIONS).
  { destruct H as [Hids _]. apply Permutation_length in Hids.
    now rewrite !length_map in Hids. }
  rewrite (calculateRiskScore_totals _ _ Hlen) in Hr |- *.
  injection Hr as <-. split; [reflexivity|].
  intros c. apply (Hrange c).
Qed.

Lemma getRiskLevel_in_band s : 0 <= s <= 100 -> in_band (getRiskLevel s) s.
Proof.
  intros Hs. unfold getRiskLevel, in_band.
  destruct (Z.leb_spec s 30); [|destruct (Z.leb_spec s 60)]; cbn; lia.
Qed.

Lemma PerCategory_eqb_eq a b : PerCategory_eqb a b = true <-> a = b.
Proof.
  destruct a, b. unfold PerCategory_eqb. cbn. split.
  - intros H. repeat (apply andb_prop in H as [H ?]).
    f_equal; now apply Z.eqb_eq.
  - intros H. injection H as -> -> -> ->. now rewrite !Z.eqb_refl.
Qed.

Lemma eqb_true_iff_iff (a b : bool) (P Q : Prop) :
  (a = true <-> P) -> (b = true <-> Q) -> Bool.eqb a b = true -> (P <-> Q).
Proof.
  intros HP HQ H. apply Bool.eqb_prop in H. subst b. now rewrite <- HP, <- HQ.
Qed.

(** X1.  For twelve answers, one per catalog question: the score shown is
    an integer from 0 to 100 and is the rounding of the total reported with
    two decimals, itself between 0 and 100; the risk level is the band of
    the score shown, and the interpretation is the sentence of that level
    with that score. *)
Theorem complete_answers_score answers :
  one_per_question answers ->
  exists r,
    calculateRiskScore ASSESSMENT_QUESTIONS answers = Returned r /\
    let s := displayedScore (categoryScores r) in
    0 <= s <= 100 /\
    Math_round (totalScore r) = s /\
    PrimFloat.leb 0%float (totalScore r) = true /\
    PrimFloat.leb (totalScore r) 100%float = true /\
    riskLevel r = getRiskLevel s /\
    in_band (riskLevel r) s /\
    interpretation r = generateInterpretation (riskLevel r) s.
Proof.
  intros H. destruct (one_per_question_scoreOf answers H) as [-> Hrange].
  eexists. split; [reflexivity|]. cbv zeta.
  change (categoryScores (scoreOf ?x)) with x.
  pose proof (checked_in_range score_check _ all_sums_score_check Hrange) as Hc.
  unfold score_check in Hc. cbv zeta in Hc.
  repeat (apply andb_prop in Hc as [Hc ?]).
  assert (Hs : 0 <= displayedScore (categoryTotals (map pair_of answers)) <= 100) by lia.
  split; [exact Hs|]. split; [now apply Z.eqb_eq|].
  split; [assumption|]. split; [assumption|].
  split; [reflexivity|]. split; [|reflexivity].
  now apply getRiskLevel_in_band.
Qed.

Lemma complete_answers_score_witness :
  exists r,
    calculateRiskScore ASSESSMENT_QUESTIONS scenario_answers = Returned r /\
    let s := displayedScore (categoryScores r) in
    0 <= s <= 100 /\
    Math_round (totalScore r) = s /\
    PrimFloat.leb 0%float (totalScore r) = true /\
    PrimFloat.leb (totalScore r) 100%float = true /\
    riskLevel r = getRiskLevel s /\
    in_band (riskLevel r) s /\
    interpretation r = generateInterpretation (riskLevel r) s.
Proof.
  apply (complete_answers_score scenario_answers).
  split; [apply Permutation_refl | reflexivity].
Defined.

(** X2.  For twelve answers, one per catalog question: the score shown is
    0 exactly when every category sum is 0, which is also exactly when no
    category is named highest-risk; it is 100 exactly when every category
    sum is at its maximum; and at the zero sums the level is [low] and the
    only recommendation is the disclaimer. *)
Theorem complete_answers_extremes answers :
  one_per_question answers ->
  exists r,
    calculateRiskScore ASSESSMENT_QUESTIONS answers = Returned r /\
    (displayedScore (categoryScores r) = 0 <-> categoryScores r = zero_sums) /\
    (highestRiskCategories r = [] <-> categoryScores r = zero_sums) /\
    (displayedScore (categoryScores r) = 100 <->
     categoryScores r = MAX_POINTS_PER_CATEGORY) /\
    (categoryScores r = zero_sums ->
     riskLevel r = low /\ recommendations r = [disclaimer]).
Proof.
  intros H. destruct (one_per_question_scoreOf answers H) as [-> Hrange].
  eexists. split; [reflexivity|].
  change (categoryScores (scoreOf ?x)) with x.
  change (highestRiskCategories (scoreOf ?x))
    with (findHighestRiskCategories (percentagesOf x)).
  pose proof (checked_in_range extremes_check _ all_sums_extremes_check Hrange) as Hc.
  unfold extremes_check in Hc.
  apply andb_prop in Hc as [Hc H3]. apply andb_prop in Hc as [H1 H2].
  split; [|split; [|split]].
  - revert H1. apply eqb_true_iff_iff; [apply Z.eqb_eq | apply PerCategory_eqb_eq].
  - revert H3. apply eqb_true_iff_iff; [|apply PerCategory_eqb_eq].
    destruct (findHighestRiskCategories _); split; congruence.
  - revert H2. apply eqb_true_iff_iff; [apply Z.eqb_eq | apply PerCategory_eqb_eq].
  - intros ->. split; vm_compute; reflexivity.
Qed.

Lemma complete_answers_extremes_witness :
  exists r,
    calculateRiskScore ASSESSMENT_QUESTIONS scenario_answers = Returned r /\
    (displayedScore (categoryScores r) = 0 <-> categoryScores r = zero_sums) /\
    (highestRiskCategories r = [] <-> categoryScores r = zero_sums) /\
    (displayedScore (categoryScores r) = 100 <->
     categoryScores r = MAX_POINTS_PER_CATEGORY) /\
    (categoryScores r = zero_sums ->
     riskLevel r = low /\ recommendations r = [disclaimer]).
Proof.
  apply (complete_answers_extremes scenario_answers).
  split; [apply Permutation_refl | reflexivity].
Defined.

(** ** Monotonicity *)

Lemma monotone_by_steps (g : Z -> Z) (lo hi : Z) :
  (forall x, lo <= x < hi -> g x <= g (x + 1)) ->
  forall x y, lo <= x <= y -> y <= hi -> g x <= g y.
Proof.
  intros Hstep x y Hxy Hy.
  assert (Hn : exists n, y = x + Z.of_nat n) by (exists (Z.to_nat (y - x)); lia).
  destruct Hn as [n ->]. induction n as [|n IH].
  - rewrite Z.add_0_r. lia.
  - transitivity (g (x + Z.of_nat n)); [apply IH; lia|].
    replace (x + Z.of_nat (S n)) with (x + Z.of_nat n + 1) by lia.
    apply Hstep. lia.
Qed.

Lemma set_get_same {A} (r : PerCategory A) c : set r c (get r c) = r.
Proof. destruct r, c; reflexivity. Qed.

Lemma set_set {A} (r : PerCategory A) c v w : set (set r c v) c w = set r c w.
Proof. destruct r, c; reflexivity. Qed.

Lemma get_set {A} (r : PerCategory A) c c' v :
  get (set r c v) c' = if Category_eqb c c' then v else get r c'.
Proof. destruct r, c, c'; reflexivity. Qed.

Lemma in_range_set sums c v :
  in_range sums -> 0 <= v <= get MAX_POINTS_PER_CATEGORY c -> in_range (set sums c v).
Proof.
  intros H Hv c'. rewrite get_set.
  destruct (Category_eqb c c') eqn:E; [|apply H].
  apply Category_eqb_eq in E. now subst c'.
Qed.

Lemma displayedScore_step sums c :
  in_range sums -> get sums c < get MAX_POINTS_PER_CATEGORY c ->
  displayedScore sums <= displayedScore (set sums c (get sums c + 1)).
Proof.
  intros Hrange Hroom.
  pose proof (checked_in_range step_check _ all_sums_step_check Hrange) as Hc.
  unfold step_check in Hc. rewrite forallb_forall in Hc.
  assert (Hin : In c Object_keys) by (destruct c; cbn; auto).
  specialize (Hc c Hin). cbv beta in Hc.
  apply Z.ltb_lt in Hroom. rewrite Hroom in Hc. now apply Z.leb_le.
Qed.

Lemma displayedScore_raise sums c v :
  in_range sums -> get sums c <= v <= get MAX_POINTS_PER_CATEGORY c ->
  displayedScore sums <= displayedScore (set sums c v).
Proof.
  intros Hrange Hv. pose proof (Hrange c) as Hc.
  rewrite <- (set_get_same sums c) at 1.
  apply (monotone_by_steps (fun x => displayedScore (set sums c x))
           0 (get MAX_POINTS_PER_CATEGORY c)); [|lia|lia].
  intros x Hx.
  assert (Hrx : in_range (set sums c x)) by (apply in_range_set; [assumption|lia]).
  pose proof (displayedScore_step (set sums c x) c Hrx) as Hstep.
  rewrite get_set, set_set in Hstep.
  replace (Category_eqb c c) with true in Hstep by (destruct c; reflexivity).
  apply Hstep. lia.
Qed.

Lemma displayedScore_monotone sums sums' :
  in_range sums -> in_range sums' -> pointwise_le sums sums' ->
  displayedScore sums <= displayedScore sums'.
Proof.
  intros Hr Hr' Hle.
  set (s1 := set sums behavioral (get sums' behavioral)).
  set (s2 := set s1 knowledge (get sums' knowledge)).
  set (s3 := set s2 environmental (get sums' environmental)).
  assert (H1 : in_range s1) by (apply in_range_set; [assumption | apply Hr']).
  assert (H2 : in_range s2) by (apply in_range_set; [assumption | apply Hr']).
  assert (H3 : in_range s3) by (apply in_range_set; [assumption | apply Hr']).
  assert (Hlast : set s3 socioeconomic (get sums' socioeconomic) = sums').
  { destruct sums, sums'; reflexivity. }
  pose proof (Hle behavioral) as Lb. pose proof (Hle knowledge) as Lk.
  pose proof (Hle environmental) as Le. pose proof (Hle socioeconomic) as Ls.
  pose proof (Hr' behavioral) as Rb. pose proof (Hr' knowledge) as Rk.
  pose proof (Hr' environmental) as Re. pose proof (Hr' socioeconomic) as Rs.
  transitivity (displayedScore s1).
  { apply displayedScore_raise; [assumption | lia]. }
  transitivity (displayedScore s2).
  { apply displayedScore_raise; [assumption|].
    destruct sums, sums'; cbn in *; lia. }
  transitivity (displayedScore s3).
  { apply displayedScore_raise; [assumption|].
    destruct sums, sums'; cbn in *; lia. }
  rewrite <- Hlast.
  apply displayedScore_raise; [assumption|].
  destruct sums, sums'; cbn in *; lia.
Qed.

Lemma calculateCategoryPercentage_step c x :
  0 <= x < get MAX_POINTS_PER_CATEGORY c ->
  calculateCategoryPercentage x c <= calculateCategoryPercentage (x + 1) c.
Proof.
  destruct c; cbn [get MAX_POINTS_PER_CATEGORY at_behavioral at_knowledge
                   at_environmental at_socioeconomic]; intros Hx.
  - assert (H : x = 0 \/ x = 1 \/ x = 2 \/ x = 3 \/ x = 4 \/ x = 5 \/ x = 6 \/
                x = 7 \/ x = 8 \/ x = 9 \/ x = 10) by lia.
    repeat (destruct H as [->|H]; [vm_compute; discriminate|]).
    subst x. vm_compute; discriminate.
  - assert (H : x = 0 \/ x = 1 \/ x = 2 \/ x = 3) by lia.
    repeat (destruct H as [->|H]; [vm_compute; discriminate|]).
    subst x. vm_compute; discriminate.
  - assert (H : x = 0 \/ x = 1 \/ x = 2 \/ x = 3 \/ x = 4 \/ x = 5) by lia.
    repeat (destruct H as [->|H]; [vm_compute; discriminate|]).
    subst x. vm_compute; discriminate.
  - assert (H : x = 0 \/ x = 1 \/ x = 2 \/ x = 3) by lia.
    repeat (destruct H as [->|H]; [vm_compute; discriminate|]).
    subst x. vm_compute; discriminate.
Qed.

Lemma percentagesOf_get sums c :
  get (percentagesOf sums) c = calculateCategoryPercentage (get sums c) c.
Proof. destruct sums, c; reflexivity. Qed.

Lemma getRiskLevel_monotone s s' :
  s <= s' -> RiskLevel_rank (getRiskLevel s) <= RiskLevel_rank (getRiskLevel s').
Proof.
  intros H. unfold getRiskLevel.
  destruct (Z.leb_spec s 30), (Z.leb_spec s' 30),
           (Z.leb_spec s 60), (Z.leb_spec s' 60); cbn; lia.
Qed.

(** X3.  Of two answer sets with one answer per catalog question, the one
    whose category sums are nowhere smaller gets category percentages that
    are nowhere smaller, a score shown that is not smaller and a risk level
    that is not lower. *)
Theorem complete_answers_monotone answers answers' :
  one_per_question answers -> one_per_question answers' ->
  pointwise_le (categoryTotals (map pair_of answers))
               (categoryTotals (map pair_of answers')) ->
  exists r r',
    calculateRiskScore ASSESSMENT_QUESTIONS answers = Returned r /\
    calculateRiskScore ASSESSMENT_QUESTIONS answers' = Returned r' /\
    pointwise_le (categoryPercentages r) (categoryPercentages r') /\
    displayedScore (categoryScores r) <= displayedScore (categoryScores r') /\
    RiskLevel_rank (riskLevel r) <= RiskLevel_rank (riskLevel r').
Proof.
  intros H H' Hle.
  destruct (one_per_question_scoreOf answers H) as [-> Hr].
  destruct (one_per_question_scoreOf answers' H') as [-> Hr'].
  do 2 eexists. split; [reflexivity|]. split; [reflexivity|].
  change (categoryScores (scoreOf ?x)) with x.
  change (categoryPercentages (scoreOf ?x)) with (percentagesOf x).
  change (riskLevel (scoreOf ?x)) with (getRiskLevel (displayedScore x)).
  pose proof (displayedScore_monotone _ _ Hr Hr' Hle) as Hscore.
  split; [|split; [exact Hscore | now apply getRiskLevel_monotone]].
  intros c. rewrite !percentagesOf_get.
  pose proof (Hr c) as Hc. pose proof (Hr' c) as Hc'. pose proof (Hle c) as Hlec.
  apply (monotone_by_steps (fun x => calculateCategoryPercentage x c)
           0 (get MAX_POINTS_PER_CATEGORY c)); [|lia|lia].
  intros x Hx. now apply calculateCategoryPercentage_step.
Qed.

Lemma complete_answers_monotone_witness :
  exists r r',
    calculateRiskScore ASSESSMENT_QUESTIONS scenario_answers = Returned r /\
    calculateRiskScore ASSESSMENT_QUESTIONS riskiest_answers = Returned r' /\
    pointwise_le (categoryPercentages r) (categoryPercentages r') /\
    displayedScore (categoryScores r) <= displayedScore (categoryScores r') /\
    RiskLevel_rank (riskLevel r) <= RiskLevel_rank (riskLevel r').
Proof.
  apply (complete_answers_monotone scenario_answers riskiest_answers).
  - split; [apply Permutation_refl | reflexivity].
  - split; [apply Permutation_refl | reflexivity].
  - intros c. destruct c; vm_compute; discriminate.
Defined.

(** ** Catalog lookups *)

(** X4.  [getQuestionByNumber] finds a question exactly for the numbers 1
    to 12; the question found carries that number and is the catalog entry
    at that position; every other number, 0 and negative ones included,
    gives nothing. *)
Theorem getQuestionByNumber_dense (n : Z) :
  getQuestionByNumber ASSESSMENT_QUESTIONS n =
    (if (1 <=? n) && (n <=? 12)
     then nth_error ASSESSMENT_QUESTIONS (Z.to_nat (n - 1))
     else None) /\
  (forall q, getQuestionByNumber ASSESSMENT_QUESTIONS n = Some q ->
     number q = n /\ In q ASSESSMENT_QUESTIONS /\ 1 <= n <= 12).
Proof.
  assert (Hfound : forall q, getQuestionByNumber ASSESSMENT_QUESTIONS n = Some q ->
                     number q = n /\ In q ASSESSMENT_QUESTIONS).
  { intros q Hq. apply find_some in Hq as [Hin Hn].
    apply Z.eqb_eq in Hn. now split. }
  assert (Hnumbers : forall q, In q ASSESSMENT_QUESTIONS -> 1 <= number q <= 12).
  { cbn. intros q Hq.
    repeat (destruct Hq as [<-|Hq]; [cbn; lia|]). destruct Hq. }
  split.
  - destruct (Z.leb_spec 1 n); [destruct (Z.leb_spec n 12)|]; cbn [andb].
    + assert (Hcases : n = 1 \/ n = 2 \/ n = 3 \/ n = 4 \/ n = 5 \/ n = 6 \/
                       n = 7 \/ n = 8 \/ n = 9 \/ n = 10 \/ n = 11 \/ n = 12) by lia.
      repeat (destruct Hcases as [->|Hcases]; [reflexivity|]).
      subst n. reflexivity.
    + apply find_none_iff. intros q Hq. apply Z.eqb_neq.
      specialize (Hnumbers q Hq). lia.
    + apply find_none_iff. intros q Hq. apply Z.eqb_neq.
      specialize (Hnumbers q Hq). lia.
  - intros q Hq. destruct (Hfound q Hq) as [Hn Hin].
    repeat split; try assumption; specialize (Hnumbers q Hin); lia.
Qed.

Lemma getQuestionById_found catalog s q :
  getQuestionById catalog s = Some q -> In q catalog /\ id q = s.
Proof.
  intros H. apply find_some in H as [Hin Hid].
  apply String.eqb_eq in Hid. now split.
Qed.

(** X5.  Looking a catalog question up by its identifier finds that very
    question, and so does looking it up by its number; an identifier that
    [getQuestionById] resolves is the identifier of the catalog question it
    returns, and an identifier no question has resolves to nothing. *)
Theorem getQuestionById_round_trip :
  (forall q, In q ASSESSMENT_QUESTIONS ->
     getQuestionById ASSESSMENT_QUESTIONS (id q) = Some q /\
     getQuestionByNumber ASSESSMENT_QUESTIONS (number q) = Some q) /\
  (forall s q, getQuestionById ASSESSMENT_QUESTIONS s = Some q ->
     In q ASSESSMENT_QUESTIONS /\ id q = s) /\
  (forall s, (forall q, In q ASSESSMENT_QUESTIONS -> id q <> s) ->
     getQuestionById ASSESSMENT_QUESTIONS s = None).
Proof.
  split; [|split].
  - intros q Hq. split.
    + apply (find_by_key id ASSESSMENT_QUESTIONS q catalog_ids_distinct Hq).
    + cbn in Hq.
      repeat (destruct Hq as [<-|Hq]; [reflexivity|]). destruct Hq.
  - apply getQuestionById_found.
  - intros s Hnone. apply find_none_iff. intros q Hq.
    apply String.eqb_neq. now apply Hnone.
Qed.

Lemma getQuestionById_round_trip_witness :
  getQuestionById ASSESSMENT_QUESTIONS "behavioral_0" = None.
Proof.
  destruct getQuestionById_round_trip as (_ & _ & Hnone).
  apply (Hnone "behavioral_0").
  cbn. intros q H.
  repeat (destruct H as [<-|H]; [discriminate|]). destruct H.
Defined.

(** X6.  [getQuestionsByCategory] splits the catalog: the questions it
    returns for a category are the catalog questions of that category; the
    four lists, taken in category order, make up the catalog again; and the
    maximum declared for a category is the sum, over its questions, of the
    largest point value a question offers. *)
Theorem getQuestionsByCategory_partition :
  (forall c q, In q (getQuestionsByCategory ASSESSMENT_QUESTIONS c) <->
               In q ASSESSMENT_QUESTIONS /\ category q = c) /\
  flat_map (getQuestionsByCategory ASSESSMENT_QUESTIONS) Object_keys =
    ASSESSMENT_QUESTIONS /\
  (forall c,
     get MAX_POINTS_PER_CATEGORY c =
     fold_right Z.add 0
       (map question_max (getQuestionsByCategory ASSESSMENT_QUESTIONS c))).
Proof.
  split; [|split].
  - intros c q. unfold getQuestionsByCategory. rewrite filter_In.
    now rewrite Category_eqb_eq.
  - reflexivity.
  - intros []; reflexivity.
Qed.

(** ** The validator on any catalog *)

(** X7.  On every catalog, an answer the validator accepts is an option of
    a catalog question: the question has the identifier, the option has the
    label, and the points and category returned are theirs, with no error
    text; an answer it rejects comes with an error text and with neither
    points nor category. *)
Theorem validateAnswer_sound catalog questionId answerText :
  let v := validateAnswer catalog questionId answerText in
  (valid v = true ->
   exists q o,
     In q catalog /\ In o (options q) /\ id q = questionId /\
     text o = answerText /\
     v = mkValidation true (Some (points o)) (Some (category q)) None) /\
  (valid v = false ->
   validation_points v = None /\ validation_category v = None /\
   exists message, error v = Some message).
Proof.
  unfold validateAnswer.
  destruct (find _ catalog) as [q|] eqn:Hq.
  - destruct (find _ (options q)) as [o|] eqn:Ho; cbn.
    + split; [intros _|discriminate].
      apply find_some in Hq as [Hq Hid]. apply find_some in Ho as [Ho Htext].
      apply String.eqb_eq in Hid, Htext.
      exists q, o. repeat split; assumption.
    + split; [discriminate|]. intros _. repeat split. eauto.
  - cbn. split; [discriminate|]. intros _. repeat split. eauto.
Qed.

Lemma validateAnswer_sound_witness :
  exists q o,
    In q ASSESSMENT_QUESTIONS /\ In o (options q) /\ id q = "knowledge_1" /\
    text o = "Yes" /\
    validateAnswer ASSESSMENT_QUESTIONS "knowledge_1" "Yes" =
      mkValidation true (Some (points o)) (Some (category q)) None.
Proof.
  apply (validateAnswer_sound ASSESSMENT_QUESTIONS "knowledge_1" "Yes").
  reflexivity.
Defined.

(** ** Recommendations *)

Lemma recommendations_loop cs : forall acc,
  fold_left
    (fun acc c =>
       match categoryRecommendations c with
       | Some rs => (acc ++ rs)%list
       | None => acc
       end)
    (map Category_name cs) acc
  = (acc ++ flat_map recommendations_at cs)%list.
Proof.
  induction cs as [|c cs IH]; intros acc; cbn [map fold_left flat_map].
  - now rewrite app_nil_r.
  - rewrite IH. unfold recommendations_at at 2.
    destruct (categoryRecommendations (Category_name c));
      [now rewrite app_assoc|reflexivity].
Qed.

Lemma generateRecommendations_parts level cs :
  generateRecommendations level (map Category_name cs) =
  (flat_map recommendations_at cs ++ level_guidance level ++ [disclaimer])%list.
Proof.
  unfold generateRecommendations. cbv zeta.
  assert (Hloop :
    (if 0 <? Z.of_nat (List.length (map Category_name cs))
     then fold_left
            (fun acc c =>
               match categoryRecommendations c with
               | Some rs => (acc ++ rs)%list
               | None => acc
               end) (map Category_name cs) []
     else []) = flat_map recommendations_at cs).
  { destruct cs as [|c cs]; [reflexivity|].
    replace (0 <? Z.of_nat (List.length (map Category_name (c :: cs)))) with true
      by (symmetry; apply Z.ltb_lt; cbn [map List.length]; lia).
    now rewrite recommendations_loop. }
  rewrite Hloop.
  destruct level; cbn [level_guidance]; rewrite <- ?app_assoc; reflexivity.
Qed.

Lemma length_flat_map_const {A B} (f : A -> list B) (n : nat) (l : list A) :
  (forall x, In x l -> List.length (f x) = n) ->
  List.length (flat_map f l) = (n * List.length l)%nat.
Proof.
  induction l as [|x l IH]; intros H; cbn [flat_map List.length]; [lia|].
  rewrite length_app, IH by (intros y Hy; apply H; now right).
  rewrite (H x) by now left. lia.
Qed.

(** X8.  The keys [findHighestRiskCategories] returns are names of
    categories, and for names of categories, at every level: the list of
    recommendations is the four entries of each category in the order of
    the keys, then the two entries of the level if it is moderate or high,
    then the disclaimer.  So it ends with the disclaimer and has four
    entries per category, two more at level moderate or high, and one. *)
Theorem generateRecommendations_shape (level : RiskLevel) :
  (forall percentages,
     exists cs, findHighestRiskCategories percentages = map Category_name cs) /\
  (forall cs,
     generateRecommendations level (map Category_name cs) =
     (flat_map recommendations_at cs ++ level_guidance level ++ [disclaimer])%list) /\
  (forall cs,
     last (generateRecommendations level (map Category_name cs)) "" = disclaimer) /\
  (forall cs,
     List.length (generateRecommendations level (map Category_name cs)) =
     (4 * List.length cs + List.length (level_guidance level) + 1)%nat) /\
  List.length (level_guidance level) = match level with low => 0%nat | _ => 2%nat end.
Proof.
  split; [|split; [|split; [|split]]].
  - intros percentages. unfold findHighestRiskCategories. cbv zeta.
    destruct (_ =? 0); [now exists []|].
    eexists (map fst _). rewrite map_map. apply map_ext. now intros [c x].
  - intros cs. apply generateRecommendations_parts.
  - intros cs. rewrite generateRecommendations_parts, !app_assoc.
    apply last_last.
  - intros cs. rewrite generateRecommendations_parts, !length_app.
    rewrite (length_flat_map_const recommendations_at 4).
    + cbn [List.length]. lia.
    + intros c _. destruct c; reflexivity.
  - destruct level; reflexivity.
Qed.

(** ** Conservation of points *)

Lemma categoryTotal_all pairs :
  categoryTotal behavioral pairs + categoryTotal knowledge pairs +
  categoryTotal environmental pairs + categoryTotal socioeconomic pairs =
  fold_right Z.add 0 (map snd pairs).
Proof.
  induction pairs as [|[c p] pairs IH]; [reflexivity|].
  rewrite !categoryTotal_cons. cbn [map fold_right fst snd].
  destruct c; cbn [Category_eqb]; lia.
Qed.

(** X9.  [calculateRiskScore] throws for any number of answers other than
    twelve, naming the number received.  For twelve answers whose
    (category, points) pairs are pairs of the catalog it returns a result
    in which the sum of a category is the sum of the points of the answers
    of that category, so the four sums add up to the points of all twelve
    answers; these are the sums the program adds in binary64 in list
    order. *)
Theorem calculateRiskScore_count_and_sums answers :
  (List.length answers = 12%nat ->
   forallb catalog_pair (map pair_of answers) = true ->
   exists r,
     calculateRiskScore ASSESSMENT_QUESTIONS answers = Returned r /\
     (forall c, get (categoryScores r) c = categoryTotal c (map pair_of answers)) /\
     at_behavioral (categoryScores r) + at_knowledge (categoryScores r) +
     at_environmental (categoryScores r) + at_socioeconomic (categoryScores r) =
     fold_right Z.add 0 (map answer_points answers) /\
     binary64Sums answers = PerCategory_map of_Z (categoryScores r)) /\
  (List.length answers <> 12%nat ->
   calculateRiskScore ASSESSMENT_QUESTIONS answers =
   Thrown (Error ("Expected 12 answers, received " ++
                  toString (Z.of_nat (List.length answers))))).
Proof.
  split.
  - intros Hlen Hcatalog.
    rewrite (calculateRiskScore_totals ASSESSMENT_QUESTIONS answers Hlen).
    eexists. split; [reflexivity|]. split; [|split].
    + intros []; reflexivity.
    + change (categoryScores (scoreOf ?x)) with x. cbn [categoryTotals at_behavioral
        at_knowledge at_environmental at_socioeconomic].
      rewrite categoryTotal_all, map_map. reflexivity.
    + change (categoryScores (scoreOf ?x)) with x.
      apply binary64Sums_exact; [lia | now apply catalog_pairs_points].
  - intros Hlen. unfold calculateRiskScore.
    change (List.length ASSESSMENT_QUESTIONS) with 12%nat.
    apply Nat.eqb_neq in Hlen. rewrite Hlen. reflexivity.
Qed.

Lemma calculateRiskScore_count_and_sums_witness :
  calculateRiskScore ASSESSMENT_QUESTIONS [] =
    Thrown (Error "Expected 12 answers, received 0") /\
  exists r,
    calculateRiskScore ASSESSMENT_QUESTIONS scenario_answers = Returned r /\
    at_behavioral (categoryScores r) + at_knowledge (categoryScores r) +
    at_environmental (categoryScores r) + at_socioeconomic (categoryScores r) = 17 /\
    binary64Sums scenario_answers = PerCategory_map of_Z (categoryScores r).
Proof.
  split.
  - apply (calculateRiskScore_count_and_sums []). discriminate.
  - destruct (calculateRiskScore_count_and_sums scenario_answers) as [Hok _].
    destruct (Hok eq_refl eq_refl) as (r & Hr & _ & Hsum & Hbin).
    exists r. split; [exact Hr | split; [exact Hsum | exact Hbin]].
Defined.

(** ** Outcomes of the procedures *)

Lemma existsb_find {A} (p : A -> bool) l :
  existsb p l = match find p l with Some _ => true | None => false end.
Proof.
  induction l as [|x l IH]; [reflexivity|]. cbn.
  destruct (p x); [reflexivity|exact IH].
Qed.

Lemma find_app {A} (p : A -> bool) l l' :
  find p (l ++ l') = match find p l with Some x => Some x | None => find p l' end.
Proof.
  induction l as [|x l IH]; [reflexivity|]. cbn.
  destruct (p x); [reflexivity|exact IH].
Qed.

Lemma validateAnswer_valid_shape catalog questionId answerText :
  valid (validateAnswer catalog questionId answerText) = true ->
  exists q o,
    In q catalog /\ In o (options q) /\ id q = questionId /\ text o = answerText /\
    validateAnswer catalog questionId answerText =
      mkValidation true (Some (points o)) (Some (category q)) None.
Proof.
  unfold validateAnswer.
  destruct (find _ catalog) as [q|] eqn:Hq; [|discriminate].
  destruct (find _ (options q)) as [o|] eqn:Ho; [|discriminate].
  intros _. apply find_some in Hq as [Hq Hid]. apply find_some in Ho as [Ho Htext].
  apply String.eqb_eq in Hid, Htext. exists q, o. repeat split; assumption.
Qed.


Lemma createSession_outcome s ua ip db :
  createSession s ua ip db =
  match session_status s db with
  | None =>
      (Returned s,
       mkDb (assessments db ++ [mkAssessment s in_progress ua ip])%list
         (assessmentResponses db) (assessmentResults db))
  | Some _ => (Thrown (Error "Failed to create assessment session"), db)
  end.
Proof.
  unfold createSession, try_catch, bind, createAssessmentSession, session_status.
  rewrite existsb_find.
  destruct (find _ (assessments db)); reflexivity.
Qed.

Lemma getQuestion_pure s n db :
  snd (getQuestion ASSESSMENT_QUESTIONS s n db) = db.
Proof.
  unfold getQuestion, with_input.
  destruct (_ && _); [|reflexivity].
  unfold try_catch, bind, getAssessmentSession.
  destruct (find _ (assessments db)); [|reflexivity].
  destruct (getQuestionByNumber _ _); reflexivity.
Qed.

Lemma getResult_pure s db : snd (getResult s db) = db.
Proof.
  unfold getResult, with_input.
  destruct (zod_string_min1 s); [|reflexivity].
  unfold try_catch, bind, getAssessmentResult.
  destruct (find _ (assessmentResults db)); reflexivity.
Qed.

Lemma submitResponse_outcome s q a db :
  if accepts s q a db then
    exists c p,
      validateAnswer ASSESSMENT_QUESTIONS q a = mkValidation true (Some p) (Some c) None /\
      submitResponse ASSESSMENT_QUESTIONS s q a db =
      (Returned (mkSubmitResponseReply true
                   (Z.of_nat (List.length (responses_of s db)) + 1) 12),
       mkDb (assessments db)
         (assessmentResponses db ++ [mkResponse s q c a p])%list
         (assessmentResults db))
  else
    exists f, submitResponse ASSESSMENT_QUESTIONS s q a db = (Thrown f, db).
Proof.
  unfold accepts, submitResponse, with_input, session_status, throw.
  destruct (zod_string_min1 s && zod_string_min1 q && zod_string_min1 a);
    [|cbn; eauto].
  cbn [andb]. unfold try_catch, bind, getAssessmentSession, throw.
  destruct (find _ (assessments db)) as [session|]; [|cbn; eauto].
  cbn [option_map]. destruct (status session); [| cbn; eauto | cbn; eauto].
  cbn [andb].
  destruct (valid (validateAnswer ASSESSMENT_QUESTIONS q a)) eqn:Hvalid;
    [|cbn; eauto].
  destruct (validateAnswer_valid_shape _ _ _ Hvalid) as (qq & o & _ & _ & _ & _ & Hv).
  exists (category qq), (points o). split; [exact Hv|].
  rewrite Hv. cbn [negb validation_category validation_points valid].
  unfold saveAssessmentResponse, getAssessmentResponses, ret.
  cbn [assessmentResponses assessments assessmentResults].
  unfold responses_of. rewrite filter_app, length_app. cbn [filter].
  rewrite String.eqb_refl. cbn [List.length].
  do 3 f_equal. lia.
Qed.

Lemma submitAssessment_outcome s db :
  if ready s db then
    submitAssessment ASSESSMENT_QUESTIONS s db =
    (Returned (session_score s db),
     mkDb (map (complete s) (assessments db)) (assessmentResponses db)
       (assessmentResults db ++ [row_of s (session_score s db)])%list)
  else
    exists f, submitAssessment ASSESSMENT_QUESTIONS s db = (Thrown f, db).
Proof.
  unfold ready, submitAssessment, with_input, session_status, result_of, throw.
  destruct (zod_string_min1 s); [|cbn; eauto].
  cbn [andb]. unfold try_catch, bind, getAssessmentSession, getAssessmentResponses, throw.
  destruct (find _ (assessments db)) as [session|]; [|cbn; eauto].
  cbn [option_map andb]. fold (responses_of s db).
  change (List.length ASSESSMENT_QUESTIONS) with 12%nat.
  destruct (Nat.eqb_spec (List.length (responses_of s db)) 12) as [Hlen|Hlen];
    [|cbn; eauto].
  cbn [negb andb].
  rewrite (calculateRiskScore_totals ASSESSMENT_QUESTIONS
             (map (fun r => mkAnswer (response_questionId r) (response_category r)
                              (response_answerText r) (response_points r))
                (responses_of s db)))
    by (rewrite length_map; exact Hlen).
  unfold saveAssessmentResult, completeAssessment, ret. rewrite existsb_find.
  destruct (find _ (assessmentResults db)); [cbn; eauto|].
  reflexivity.
Qed.

(** ** How a call changes what the store holds about a session *)

Lemma session_status_created A R S s ua ip s' :
  session_status s (mkDb A R S) = None ->
  session_status s' (mkDb (A ++ [mkAssessment s in_progress ua ip])%list R S) =
  if String.eqb s' s then Some in_progress else session_status s' (mkDb A R S).
Proof.
  unfold session_status. cbn [assessments]. intros Hnone. rewrite find_app.
  cbn [find assessment_sessionId]. rewrite (String.eqb_sym s s').
  destruct (String.eqb_spec s' s) as [->|Hne].
  - destruct (find _ A); [discriminate|reflexivity].
  - clear Hnone. destruct (find _ A); reflexivity.
Qed.

Lemma find_complete s s' A :
  find (fun a => String.eqb (assessment_sessionId a) s') (map (complete s) A) =
  option_map (complete s) (find (fun a => String.eqb (assessment_sessionId a) s') A).
Proof.
  induction A as [|a A IH]; [reflexivity|]. cbn [map find].
  assert (Hid : assessment_sessionId (complete s a) = assessment_sessionId a).
  { unfold complete. destruct (String.eqb _ s); reflexivity. }
  rewrite Hid. destruct (String.eqb (assessment_sessionId a) s'); [reflexivity|exact IH].
Qed.

Lemma session_status_completed A R S s s' :
  session_status s' (mkDb (map (complete s) A) R S) =
  if String.eqb s' s
  then option_map (fun _ => completed) (session_status s' (mkDb A R S))
  else session_status s' (mkDb A R S).
Proof.
  unfold session_status. cbn [assessments]. rewrite find_complete.
  destruct (find _ A) as [a|] eqn:Ha; [|now destruct (String.eqb s' s)].
  apply find_some in Ha as [_ Hid]. apply String.eqb_eq in Hid.
  cbn [option_map]. unfold complete. rewrite Hid.
  destruct (String.eqb s' s); reflexivity.
Qed.

Lemma result_of_saved A A' R S s row s' :
  result_sessionId row = s ->
  result_of s (mkDb A R S) = None ->
  result_of s' (mkDb A' R (S ++ [row])%list) =
  if String.eqb s' s then Some row else result_of s' (mkDb A R S).
Proof.
  unfold result_of. cbn [assessmentResults]. intros Hrow Hnone. rewrite find_app.
  cbn [find]. rewrite Hrow, (String.eqb_sym s s').
  destruct (String.eqb_spec s' s) as [->|Hne].
  - destruct (find _ S); [discriminate|reflexivity].
  - clear Hnone. destruct (find _ S); reflexivity.
Qed.

Lemma responses_of_saved A R S row s' :
  responses_of s' (mkDb A (R ++ [row])%list S) =
  (responses_of s' (mkDb A R S) ++
   if String.eqb s' (response_sessionId row) then [row] else [])%list.
Proof.
  unfold responses_of. cbn [assessmentResponses]. rewrite filter_app.
  cbn [filter]. rewrite (String.eqb_sym s').
  destruct (String.eqb (response_sessionId row) s'); reflexivity.
Qed.

Lemma accepts_in_progress s q a db :
  accepts s q a db = true -> session_status s db = Some in_progress.
Proof.
  unfold accepts. intros H.
  apply andb_prop in H as [H _]. apply andb_prop in H as [_ H].
  destruct (session_status s db) as [[]|]; congruence.
Qed.

Lemma ready_facts s db :
  ready s db = true ->
  s <> "" /\ session_status s db <> None /\
  List.length (responses_of s db) = 12%nat /\ result_of s db = None.
Proof.
  unfold ready, zod_string_min1. intros H.
  apply andb_prop in H as [H Hres]. apply andb_prop in H as [H Hlen].
  apply andb_prop in H as [Hs Hstatus].
  repeat split.
  - apply negb_true_iff, String.eqb_neq in Hs. exact Hs.
  - destruct (session_status s db); congruence.
  - now apply Nat.eqb_eq.
  - destruct (result_of s db); congruence.
Qed.

Lemma step_effect c db : effect db c (step c db).
Proof.
  destruct c as [s ua ip | s n | s q a | s | s]; cbn [step].
  - rewrite createSession_outcome.
    destruct (session_status s db) eqn:E; cbn [snd]; [constructor|].
    now constructor.
  - rewrite getQuestion_pure. constructor.
  - pose proof (submitResponse_outcome s q a db) as H.
    destruct (accepts s q a db) eqn:E.
    + destruct H as (c & p & Hv & ->). cbn [snd].
      constructor; [now apply accepts_in_progress with (q := q) (a := a) | exact Hv].
    + destruct H as (f & ->). constructor.
  - pose proof (submitAssessment_outcome s db) as H.
    destruct (ready s db) eqn:E.
    + rewrite H. cbn [snd]. destruct (ready_facts s db E) as (_ & H1 & H2 & H3).
      now constructor.
    + destruct H as (f & ->). constructor.
  - rewrite getResult_pure. constructor.
Qed.

Lemma mkDb_eta db : mkDb (assessments db) (assessmentResponses db) (assessmentResults db) = db.
Proof. destruct db; reflexivity. Qed.

(** What a call leaves of the view of a session. *)
Lemma effect_view db c db' s' :
  effect db c db' ->
  view s' db' = view s' db \/
  (s' = session_of_call c /\
   match c with
   | CreateSession _ _ _ =>
       session_status s' db = None /\
       view s' db' = (Some in_progress, responses_of s' db, result_of s' db)
   | SubmitResponse s q a =>
       session_status s' db = Some in_progress /\
       exists c p,
         validateAnswer ASSESSMENT_QUESTIONS q a =
           mkValidation true (Some p) (Some c) None /\
         view s' db' =
           (Some in_progress, (responses_of s' db ++ [mkResponse s q c a p])%list,
            result_of s' db)
   | SubmitAssessment _ =>
       session_status s' db <> None /\
       List.length (responses_of s' db) = 12%nat /\
       result_of s' db = None /\
       view s' db' =
         (Some completed, responses_of s' db, Some (row_of s' (session_score s' db)))
   | _ => False
   end).
Proof.
  intros H.
  destruct H as [c | s ua ip Hnone | s q a c p Hstatus Hv | s Hsome Hlen Hnone];
    [left; reflexivity | | |]; destruct db as [A R S];
    cbn [assessments assessmentResponses assessmentResults] in *; unfold view.
  - rewrite (session_status_created _ _ _ s ua ip s' Hnone).
    change (responses_of s' (mkDb ?X R S)) with (responses_of s' (mkDb A R S)).
    change (result_of s' (mkDb ?X R S)) with (result_of s' (mkDb A R S)).
    destruct (String.eqb_spec s' s) as [->|Hne]; [right|left; reflexivity].
    cbn [session_of_call]. split; [reflexivity|]. split; [exact Hnone|reflexivity].
  - rewrite responses_of_saved. cbn [response_sessionId].
    change (session_status s' (mkDb A ?X S)) with (session_status s' (mkDb A R S)).
    change (result_of s' (mkDb A ?X S)) with (result_of s' (mkDb A R S)).
    destruct (String.eqb_spec s' s) as [->|Hne];
      [right|left; now rewrite app_nil_r].
    cbn [session_of_call]. split; [reflexivity|]. split; [exact Hstatus|].
    exists c, p. split; [exact Hv|]. now rewrite Hstatus.
  - rewrite session_status_completed.
    change (session_status s' (mkDb A R ?Y)) with (session_status s' (mkDb A R S)).
    rewrite (result_of_saved A (map (complete s) A) R S s
               (row_of s (session_score s (mkDb A R S))) s' eq_refl Hnone).
    change (responses_of s' (mkDb ?X R ?Y)) with (responses_of s' (mkDb A R S)).
    destruct (String.eqb_spec s' s) as [->|Hne]; [right|left; reflexivity].
    cbn [session_of_call]. split; [reflexivity|].
    split; [exact Hsome|]. split; [exact Hlen|]. split; [exact Hnone|].
    destruct (session_status s (mkDb A R S)); [reflexivity|congruence].
Qed.

(** ** Stores the procedures can reach *)

Lemma session_status_none_not_in s db :
  session_status s db = None -> ~ In s (map assessment_sessionId (assessments db)).
Proof.
  unfold session_status. intros H Hin.
  destruct (find _ (assessments db)) eqn:E; [discriminate|].
  apply in_map_iff in Hin as (a & Ha & Hin).
  pose proof (proj1 (find_none_iff _ _) E a Hin) as Hf. cbv beta in Hf.
  rewrite Ha, String.eqb_refl in Hf. discriminate.
Qed.

Lemma result_of_none_not_in s db :
  result_of s db = None -> ~ In s (map result_sessionId (assessmentResults db)).
Proof.
  unfold result_of. intros E Hin.
  apply in_map_iff in Hin as (r & Hr & Hin).
  pose proof (proj1 (find_none_iff _ _) E r Hin) as Hf. cbv beta in Hf.
  rewrite Hr, String.eqb_refl in Hf. discriminate.
Qed.

Lemma NoDup_snoc {A} (l : list A) x : NoDup l -> ~ In x l -> NoDup (l ++ [x]).
Proof.
  intros Hl Hx. apply (Permutation_NoDup (Permutation_cons_append l x)).
  now constructor.
Qed.

Lemma map_complete_ids s A :
  map assessment_sessionId (map (complete s) A) = map assessment_sessionId A.
Proof.
  rewrite map_map. apply map_ext. intros a. unfold complete.
  destruct (String.eqb _ s); reflexivity.
Qed.

Lemma view_eq s db db' :
  view s db' = view s db ->
  session_status s db' = session_status s db /\
  responses_of s db' = responses_of s db /\
  result_of s db' = result_of s db /\
  session_score s db' = session_score s db.
Proof.
  unfold view, session_score. intros H. injection H as H1 H2 H3.
  now rewrite H1, H2, H3.
Qed.

Lemma effect_consistent db c db' : effect db c db' -> consistent db -> consistent db'.
Proof.
  intros Heff Hc. constructor.
  - destruct Heff as [c | s ua ip Hnone | s q a c p Hstatus Hv | s Hsome Hlen Hnone];
      cbn [assessments]; try apply Hc.
    + rewrite map_app. apply NoDup_snoc; [apply Hc|].
      now apply session_status_none_not_in.
    + rewrite map_complete_ids. apply Hc.
  - destruct Heff as [c | s ua ip Hnone | s q a c p Hstatus Hv | s Hsome Hlen Hnone];
      cbn [assessmentResults]; try apply Hc.
    rewrite map_app. apply NoDup_snoc; [apply Hc|].
    now apply result_of_none_not_in.
  - intros s. destruct (effect_view db c db' s Heff) as [Hv | [_ Hcase]].
    + apply view_eq in Hv as (-> & _). apply Hc.
    + destruct c; try contradiction.
      * destruct Hcase as [_ Hv]. injection Hv as -> _ _. discriminate.
      * destruct Hcase as (_ & ? & ? & _ & Hv). injection Hv as -> _ _. discriminate.
      * destruct Hcase as (_ & _ & _ & Hv). injection Hv as -> _ _. discriminate.
  - intros s. destruct (effect_view db c db' s Heff) as [Hv | [_ Hcase]].
    + apply view_eq in Hv as (-> & -> & _). apply Hc.
    + destruct c; try contradiction.
      * destruct Hcase as [_ Hv]. injection Hv as -> _ _. discriminate.
      * destruct Hcase as (_ & ? & ? & _ & Hv). injection Hv as -> _ _. discriminate.
      * destruct Hcase as (_ & _ & _ & Hv). injection Hv as -> _ _. discriminate.
  - intros s. destruct (effect_view db c db' s Heff) as [Hv | [_ Hcase]].
    + apply view_eq in Hv as (-> & _ & -> & _). apply Hc.
    + destruct c; try contradiction.
      * destruct Hcase as [_ Hv]. injection Hv as -> _ _. discriminate.
      * destruct Hcase as (_ & ? & ? & _ & Hv). injection Hv as -> _ _. discriminate.
      * destruct Hcase as (_ & _ & _ & Hv). injection Hv as _ _ ->. discriminate.
  - intros s row. destruct (effect_view db c db' s Heff) as [Hv | [_ Hcase]].
    + apply view_eq in Hv as (-> & -> & -> & ->). apply Hc.
    + destruct c; try contradiction.
      * destruct Hcase as [Hnone Hv]. injection Hv as _ _ ->. intros Hrow.
        apply (result_is_score db Hc) in Hrow as [Hrow _]. congruence.
      * destruct Hcase as (Hstatus & ? & ? & _ & Hv). injection Hv as _ _ ->.
        intros Hrow. apply (result_is_score db Hc) in Hrow as [Hrow _]. congruence.
      * destruct Hcase as (_ & Hlen & _ & Hv).
        pose proof Hv as Hv'. unfold view in Hv'. injection Hv' as H1 H2 H3.
        rewrite H1, H2, H3. unfold session_score. rewrite H2.
        intros Hrow. injection Hrow as <-. repeat split. exact Hlen.
Qed.

Lemma emptyDb_consistent : consistent emptyDb.
Proof.
  constructor; cbn; try constructor; try discriminate.
  intros s H. now contradiction H.
Qed.

Lemma run_from_consistent cs : forall db, consistent db -> consistent (run_from db cs).
Proof.
  induction cs as [|c cs IH]; intros db Hdb; [exact Hdb|].
  cbn. apply IH. exact (effect_consistent db c _ (step_effect c db) Hdb).
Qed.

Lemma run_consistent cs : consistent (run cs).
Proof. apply (run_from_consistent cs emptyDb emptyDb_consistent). Qed.

(** ** Contracts of the procedures *)

Lemma getResult_outcome s db :
  s <> "" ->
  getResult s db =
  match result_of s db with
  | Some row =>
      (Returned (mkScoringResult (result_totalScore row) (result_riskLevel row)
                   (result_categoryScores row) (result_categoryPercentages row)
                   (result_highestRiskCategories row) (result_interpretation row)
                   (result_recommendations row)), db)
  | None => (Thrown (Error "Failed to retrieve assessment result"), db)
  end.
Proof.
  intros Hs. unfold getResult, with_input, zod_string_min1, result_of.
  apply String.eqb_neq in Hs. rewrite Hs. cbn [negb].
  unfold try_catch, bind, getAssessmentResult.
  destruct (find _ (assessmentResults db)); reflexivity.
Qed.

Lemma submitAssessment_stored s db :
  s <> "" -> session_status s db <> None ->
  List.length (responses_of s db) = 12%nat -> result_of s db <> None ->
  submitAssessment ASSESSMENT_QUESTIONS s db =
  (Thrown (DuplicateEntry "assessmentResults_sessionId_unique"), db).
Proof.
  intros Hs Hsession Hlen Hresult.
  unfold submitAssessment, with_input, zod_string_min1.
  apply String.eqb_neq in Hs. rewrite Hs. cbn [negb].
  unfold try_catch, bind, getAssessmentSession, getAssessmentResponses, throw.
  unfold session_status in Hsession.
  destruct (find _ (assessments db)); [|now contradiction Hsession].
  fold (responses_of s db). change (List.length ASSESSMENT_QUESTIONS) with 12%nat.
  rewrite Hlen. cbn [Nat.eqb negb].
  rewrite (calculateRiskScore_totals ASSESSMENT_QUESTIONS
             (map (fun r => mkAnswer (response_questionId r) (response_category r)
                              (response_answerText r) (response_points r))
                (responses_of s db)))
    by (rewrite length_map; exact Hlen).
  unfold saveAssessmentResult. rewrite existsb_find.
  unfold result_of in Hresult.
  destruct (find _ (assessmentResults db)); [reflexivity|now contradiction Hresult].
Qed.

Lemma submitResponse_finished s q a db :
  s <> "" -> q <> "" -> a <> "" ->
  session_status s db = Some completed ->
  submitResponse ASSESSMENT_QUESTIONS s q a db =
  (Thrown (Error "Assessment already completed"), db).
Proof.
  intros Hs Hq Ha Hstatus. unfold submitResponse, with_input, zod_string_min1.
  apply String.eqb_neq in Hs, Hq, Ha. rewrite Hs, Hq, Ha. cbn [negb andb].
  unfold try_catch, bind, getAssessmentSession, throw.
  unfold session_status in Hstatus.
  destruct (find _ (assessments db)) as [session|]; [|discriminate].
  cbn in Hstatus. injection Hstatus as ->. reflexivity.
Qed.

(** X10.  A call addressed to one session changes nothing of what the
    store holds about any other session: its status, its response rows and
    its result row stay as they were. *)
Theorem calls_leave_other_sessions c db s' :
  session_of_call c <> s' -> view s' (step c db) = view s' db.
Proof.
  intros Hother.
  destruct (effect_view db c (step c db) s' (step_effect c db)) as [Hv | [Hs _]];
    [exact Hv | congruence].
Qed.

Lemma calls_leave_other_sessions_witness :
  view "t" (step (SubmitResponse "s" "behavioral_1" "Often")
              (run [CreateSession "s" None None; CreateSession "t" None None])) =
  view "t" (run [CreateSession "s" None None; CreateSession "t" None None]).
Proof.
  apply (calls_leave_other_sessions (SubmitResponse "s" "behavioral_1" "Often")).
  discriminate.
Defined.

(** X11.  A call that throws leaves the store as it was, whichever of the
    five procedures it is; [getQuestion] and [getResult] leave it as it was
    in every case. *)
Theorem failed_calls_change_nothing db :
  (forall s ua ip f db', createSession s ua ip db = (Thrown f, db') -> db' = db) /\
  (forall s q a f db',
     submitResponse ASSESSMENT_QUESTIONS s q a db = (Thrown f, db') -> db' = db) /\
  (forall s f db',
     submitAssessment ASSESSMENT_QUESTIONS s db = (Thrown f, db') -> db' = db) /\
  (forall s n, snd (getQuestion ASSESSMENT_QUESTIONS s n db) = db) /\
  (forall s, snd (getResult s db) = db).
Proof.
  repeat split.
  - intros s ua ip f db'. rewrite createSession_outcome.
    destruct (session_status s db); congruence.
  - intros s q a f db'. pose proof (submitResponse_outcome s q a db) as H.
    destruct (accepts s q a db).
    + destruct H as (c & p & _ & ->). discriminate.
    + destruct H as (f' & ->). congruence.
  - intros s f db'. pose proof (submitAssessment_outcome s db) as H.
    destruct (ready s db).
    + rewrite H. discriminate.
    + destruct H as (f' & ->). congruence.
  - intros. apply getQuestion_pure.
  - intros. apply getResult_pure.
Qed.

Lemma failed_calls_change_nothing_witness :
  snd (submitAssessment ASSESSMENT_QUESTIONS "s" (run answered_once)) <> run answered_once /\
  snd (submitAssessment ASSESSMENT_QUESTIONS "s" (run finalized_once)) = run finalized_once.
Proof.
  split.
  - vm_compute. discriminate.
  - destruct (failed_calls_change_nothing (run finalized_once)) as (_ & _ & H & _).
    destruct (submitAssessment ASSESSMENT_QUESTIONS "s" (run finalized_once))
      as [[r|f] db'] eqn:E; [vm_compute in E; discriminate|].
    apply (H "s" f db' E).
Defined.







(** ** After a finalization *)

Lemma view_finalized s db :
  session_status s db <> None -> result_of s db = None ->
  view s (mkDb (map (complete s) (assessments db)) (assessmentResponses db)
            (assessmentResults db ++ [row_of s (session_score s db)])%list) =
  (Some completed, responses_of s db, Some (row_of s (session_score s db))).
Proof.
  intros Hsome Hnone. destruct db as [A R S].
  cbn [assessments assessmentResponses assessmentResults]. unfold view.
  rewrite session_status_completed, String.eqb_refl.
  change (session_status s (mkDb A R ?Y)) with (session_status s (mkDb A R S)).
  rewrite (result_of_saved A (map (complete s) A) R S s
             (row_of s (session_score s (mkDb A R S))) s eq_refl Hnone),
    String.eqb_refl.
  change (responses_of s (mkDb ?X R ?Y)) with (responses_of s (mkDb A R S)).
  destruct (session_status s (mkDb A R S)); [reflexivity|congruence].
Qed.

Lemma frozen_step c db s row :
  session_status s db = Some completed -> result_of s db = Some row ->
  view s (step c db) = view s db.
Proof.
  intros Hstatus Hresult.
  destruct (effect_view db c (step c db) s (step_effect c db)) as [Hv | [_ Hcase]];
    [exact Hv|].
  destruct c; try contradiction.
  - destruct Hcase as [Hnone _]. congruence.
  - destruct Hcase as [Hin _]. congruence.
  - destruct Hcase as (_ & _ & Hnone & _). congruence.
Qed.

Lemma frozen_run cs : forall db s row,
  session_status s db = Some completed -> result_of s db = Some row ->
  view s (run_from db cs) = view s db.
Proof.
  induction cs as [|c cs IH]; intros db s row Hstatus Hresult; [reflexivity|].
  cbn [run_from fold_left]. fold (run_from (step c db) cs).
  pose proof (frozen_step c db s row Hstatus Hresult) as Hv.
  apply view_eq in Hv as Hparts. destruct Hparts as (H1 & _ & H3 & _).
  rewrite (IH (step c db) s row); [exact Hv | congruence | congruence].
Qed.

(** X15.  Once [submitAssessment] has returned a result for a session,
    after any later sequence of calls the session is still [completed], its
    response rows are the twelve the result was computed from, and its
    result row still holds, in the columns other than [totalScore], the
    fields of that result: [getResult] returns those fields, a further
    [submitAssessment] stops at the UNIQUE constraint on results, and
    [submitResponse] is turned away with "Assessment already completed". *)
Theorem finalized_session_is_frozen s db r db1 cs :
  submitAssessment ASSESSMENT_QUESTIONS s db = (Returned r, db1) ->
  let db2 := run_from db1 cs in
  r = session_score s db /\
  session_status s db2 = Some completed /\
  responses_of s db2 = responses_of s db /\
  (exists row, result_of s db2 = Some row /\
               result_sessionId row = s /\
               stored_fields row = result_fields r) /\
  (exists r', getResult s db2 = (Returned r', db2) /\
              result_fields r' = result_fields r) /\
  submitAssessment ASSESSMENT_QUESTIONS s db2 =
    (Thrown (DuplicateEntry "assessmentResults_sessionId_unique"), db2) /\
  (forall q a, q <> "" -> a <> "" ->
     submitResponse ASSESSMENT_QUESTIONS s q a db2 =
     (Thrown (Error "Assessment already completed"), db2)).
Proof.
  intros Hsubmit db2.
  pose proof (submitAssessment_outcome s db) as Hout.
  destruct (ready s db) eqn:Hready;
    [|destruct Hout as (f & Hf); congruence].
  rewrite Hout in Hsubmit. injection Hsubmit as <- <-.
  destruct (ready_facts s db Hready) as (Hs & Hsession & Hlen & Hnone).
  pose proof (view_finalized s db Hsession Hnone) as Hv1.
  set (db1 := mkDb _ _ _) in *.
  assert (Hview : view s db2 = view s db1).
  { apply frozen_run with (row := row_of s (session_score s db)).
    - unfold view in Hv1. now injection Hv1.
    - unfold view in Hv1. now injection Hv1. }
  rewrite Hv1 in Hview. unfold view in Hview. injection Hview as H1 H2 H3.
  split; [reflexivity|]. split; [exact H1|]. split; [exact H2|].
  split; [exists (row_of s (session_score s db)); now rewrite H3|].
  split; [|split].
  - rewrite (getResult_outcome s db2 Hs), H3. eexists. split; reflexivity.
  - apply submitAssessment_stored; try assumption; try congruence.
  - intros q a Hq Ha. now apply submitResponse_finished.
Qed.

Lemma finalized_session_is_frozen_witness :
  session_status "s"
    (run_from (run finalized_once)
       [SubmitResponse "s" "behavioral_1" "Never"; CreateSession "s" None None;
        SubmitAssessment "s"]) = Some completed /\
  responses_of "s"
    (run_from (run finalized_once)
       [SubmitResponse "s" "behavioral_1" "Never"; CreateSession "s" None None;
        SubmitAssessment "s"]) = responses_of "s" (run answered_once) /\
  exists row,
    result_of "s"
      (run_from (run finalized_once)
         [SubmitResponse "s" "behavioral_1" "Never"; CreateSession "s" None None;
          SubmitAssessment "s"]) = Some row /\
    stored_fields row = result_fields (session_score "s" (run answered_once)).
Proof.
  destruct (submitAssessment ASSESSMENT_QUESTIONS "s" (run answered_once))
    as [[r|f] db1] eqn:E; [|vm_compute in E; discriminate].
  destruct (finalized_session_is_frozen "s" (run answered_once) r db1
              [SubmitResponse "s" "behavioral_1" "Never"; CreateSession "s" None None;
               SubmitAssessment "s"] E)
    as (Hr & Hstatus & Hrows & (row & Hrow & _ & Hfields) & _).
  assert (Hdb1 : db1 = run finalized_once).
  { unfold finalized_once, run. rewrite fold_left_app. cbn [fold_left step].
    fold (run answered_once). now rewrite E. }
  rewrite <- Hdb1, <- Hr.
  split; [exact Hstatus|]. split; [exact Hrows|].
  exists row. split; [exact Hrow | exact Hfields].
Defined.

(** X16.  In every store the procedures can reach from the empty one:
    session identifiers are pairwise distinct and so are those of the
    result rows; no session is [abandoned]; response rows belong to stored
    sessions; a session is [completed] exactly when it has a result row; and
    a session with a result row has twelve response rows, the row being
    under the identifier of the session and holding, in the columns other
    than [totalScore], the fields of the score of those twelve. *)
Theorem reachable_stores_consistent cs :
  let db := run cs in
  NoDup (map assessment_sessionId (assessments db)) /\
  NoDup (map result_sessionId (assessmentResults db)) /\
  (forall s, session_status s db <> Some abandoned) /\
  (forall s, responses_of s db <> [] -> session_status s db <> None) /\
  (forall s, session_status s db = Some completed <-> result_of s db <> None) /\
  (forall s row, result_of s db = Some row ->
     List.length (responses_of s db) = 12%nat /\
     result_sessionId row = s /\
     stored_fields row = result_fields (session_score s db)).
Proof.
  cbv zeta. pose proof (run_consistent cs) as Hc.
  split; [apply Hc|]. split; [apply Hc|]. split; [apply Hc|].
  split; [apply Hc|]. split.
  - intros s. split; [apply Hc|].
    destruct (result_of s (run cs)) as [row|] eqn:E; [intros _|congruence].
    now apply (result_is_score _ Hc s row).
  - intros s row Hrow. apply (result_is_score _ Hc s row) in Hrow.
    destruct Hrow as (_ & Hlen & ->). split; [exact Hlen|]. split; reflexivity.
Qed.

(** X17.  On a reachable store, [getResult] for a non-empty identifier
    returns exactly for a completed session, and what it returns is, field
    by field, the score of the twelve rows the store holds for the session;
    for any other identifier it throws "Failed to retrieve assessment
    result". *)
Theorem getResult_on_reachable cs s :
  s <> "" ->
  let db := run cs in
  (session_status s db = Some completed ->
   exists r,
     getResult s db = (Returned r, db) /\
     result_fields r = result_fields (session_score s db) /\
     List.length (responses_of s db) = 12%nat) /\
  (session_status s db <> Some completed ->
   getResult s db = (Thrown (Error "Failed to retrieve assessment result"), db)).
Proof.
  intros Hs db. pose proof (run_consistent cs) as Hc. fold db in Hc.
  rewrite (getResult_outcome s db Hs). split.
  - intros Hdone. pose proof (completed_has_result db Hc s Hdone) as Hsome.
    destruct (result_of s db) as [row|] eqn:E; [|congruence].
    destruct (result_is_score db Hc s row E) as (_ & Hlen & ->).
    eexists. split; [reflexivity|]. split; [reflexivity|exact Hlen].
  - intros Hnot. destruct (result_of s db) as [row|] eqn:E; [|reflexivity].
    destruct (result_is_score db Hc s row E) as (Hdone & _). congruence.
Qed.

Lemma getResult_on_reachable_witness :
  getResult "s" (run answered_once) =
  (Thrown (Error "Failed to retrieve assessment result"), run answered_once).
Proof.
  apply (getResult_on_reachable answered_once "s"); [discriminate|].
  vm_compute. discriminate.
Defined.

(** ** A whole assessment *)

Lemma catalog_strings_nonempty q :
  In q ASSESSMENT_QUESTIONS ->
  id q <> "" /\ forall o, In o (options q) -> text o <> "".
Proof.
  cbn. intros Hq.
  repeat (destruct Hq as [<-|Hq];
          [split; [discriminate|]; cbn; intros o Ho;
           repeat (destruct Ho as [<-|Ho]; [discriminate|]); destruct Ho|]).
  destruct Hq.
Qed.

Lemma view_created s ua ip db :
  session_status s db = None ->
  view s (step (CreateSession s ua ip) db) =
  (Some in_progress, responses_of s db, result_of s db).
Proof.
  intros Hnone. cbn [step]. rewrite createSession_outcome, Hnone. cbn [snd].
  destruct db as [A R S]. cbn [assessments assessmentResponses assessmentResults].
  unfold view. rewrite (session_status_created A R S s ua ip s Hnone), String.eqb_refl.
  reflexivity.
Qed.

Lemma view_answered s q o db :
  s <> "" -> In q ASSESSMENT_QUESTIONS -> offered q o ->
  session_status s db = Some in_progress ->
  view s (step (SubmitResponse s (id q) (text o)) db) =
  (Some in_progress,
   (responses_of s db ++ [mkResponse s (id q) (category q) (text o) (points o)])%list,
   result_of s db).
Proof.
  intros Hs Hq Ho Hstatus.
  pose proof (validateAnswer_valid ASSESSMENT_QUESTIONS catalog_ids_distinct
                catalog_labels_distinct q o Hq Ho) as Hv.
  destruct (catalog_strings_nonempty q Hq) as [Hid Hlabels].
  specialize (Hlabels o Ho).
  assert (Hacc : accepts s (id q) (text o) db = true).
  { unfold accepts, zod_string_min1. apply String.eqb_neq in Hs, Hid, Hlabels.
    now rewrite Hs, Hid, Hlabels, Hstatus, Hv. }
  pose proof (submitResponse_outcome s (id q) (text o) db) as Hout.
  rewrite Hacc in Hout. destruct Hout as (c & p & Hv' & Hout).
  rewrite Hv in Hv'. injection Hv' as <- <-.
  cbn [step]. rewrite Hout. cbn [snd].
  destruct db as [A R S]. cbn [assessments assessmentResponses assessmentResults].
  unfold view. rewrite responses_of_saved. cbn [response_sessionId].
  rewrite String.eqb_refl.
  change (session_status s (mkDb A ?X S)) with (session_status s (mkDb A R S)).
  change (result_of s (mkDb A ?X S)) with (result_of s (mkDb A R S)).
  now rewrite Hstatus.
Qed.

Lemma view_parts s db a b c :
  view s db = (a, b, c) ->
  session_status s db = a /\ responses_of s db = b /\ result_of s db = c.
Proof. unfold view. intros H. injection H as H1 H2 H3. auto. Qed.

Lemma view_answers s qs choices :
  s <> "" -> Forall2 offered qs choices ->
  (forall q, In q qs -> In q ASSESSMENT_QUESTIONS) ->
  forall db,
    session_status s db = Some in_progress ->
    view s (run_from db (answer_calls s qs choices)) =
    (Some in_progress, (responses_of s db ++ answer_rows s qs choices)%list,
     result_of s db).
Proof.
  intros Hs Hoffered. induction Hoffered as [|q o qs choices Ho _ IH];
    intros Hin db Hstatus.
  - cbn. unfold view. now rewrite Hstatus, app_nil_r.
  - unfold answer_calls, answer_rows. cbn [combine map run_from fold_left].
    fold (answer_calls s qs choices) (answer_rows s qs choices).
    fold (run_from (step (SubmitResponse s (id q) (text o)) db)
            (answer_calls s qs choices)).
    pose proof (view_answered s q o db Hs (Hin q (or_introl eq_refl)) Ho Hstatus) as Hv.
    apply view_parts in Hv as (H1 & H2 & H3).
    rewrite IH; [|intros q' Hq'; apply Hin; now right | exact H1].
    now rewrite H2, H3, <- app_assoc.
Qed.

Lemma combine_fst {A B} (l : list A) (l' : list B) (R : A -> B -> Prop) :
  Forall2 R l l' -> map fst (combine l l') = l.
Proof. induction 1; cbn; congruence. Qed.

Lemma answer_rows_complete choices :
  Forall2 offered ASSESSMENT_QUESTIONS choices ->
  forall s, one_per_question (map answer_of (answer_rows s ASSESSMENT_QUESTIONS choices)).
Proof.
  intros Hoffered s. split.
  - unfold answer_rows. rewrite !map_map.
    rewrite (map_ext _ (fun x => id (fst x))) by (intros [q o]; reflexivity).
    rewrite <- (map_map fst id), (combine_fst _ _ _ Hoffered).
    apply Permutation_refl.
  - apply forallb_forall. intros a Ha.
    apply in_map_iff in Ha as (row & <- & Hrow).
    unfold answer_rows in Hrow. apply in_map_iff in Hrow as ([q o] & <- & Hqo).
    assert (Hq : In q ASSESSMENT_QUESTIONS) by (apply in_combine_l in Hqo; exact Hqo).
    assert (Ho : offered q o).
    { clear Hq. induction Hoffered as [|q' o' qs cs' H _ IH]; [destruct Hqo|].
      destruct Hqo as [E|Hqo]; [injection E as <- <-; exact H | now apply IH]. }
    unfold drawn_from_catalog, answer_of. cbn.
    rewrite (validateAnswer_valid ASSESSMENT_QUESTIONS catalog_ids_distinct
               catalog_labels_distinct q o Hq Ho). cbn.
    rewrite Z.eqb_refl. destruct (category q); reflexivity.
Qed.

(** X18.  On any reachable store, a respondent who opens a session under
    an unused, non-empty identifier and answers the twelve questions in
    order, each with one of its options, gets a result from
    [submitAssessment], whatever options were picked: the session then holds
    exactly the twelve rows, the category sums are the points of the options
    picked, every sum is within its category maximum, every percentage and
    the score shown are between 0 and 100, and the session is completed. *)
Theorem whole_assessment cs s ua ip choices :
  s <> "" ->
  session_status s (run cs) = None ->
  Forall2 offered ASSESSMENT_QUESTIONS choices ->
  let db := run_from (run cs)
              (CreateSession s ua ip :: answer_calls s ASSESSMENT_QUESTIONS choices) in
  exists r db',
    submitAssessment ASSESSMENT_QUESTIONS s db = (Returned r, db') /\
    responses_of s db = answer_rows s ASSESSMENT_QUESTIONS choices /\
    categoryScores r = categoryTotals (choice_pairs ASSESSMENT_QUESTIONS choices) /\
    (forall c,
       0 <= get (categoryScores r) c <= get MAX_POINTS_PER_CATEGORY c /\
       0 <= get (categoryPercentages r) c <= 100) /\
    0 <= displayedScore (categoryScores r) <= 100 /\
    session_status s db' = Some completed.
Proof.
  intros Hs Hfresh Hoffered db.
  pose proof (run_consistent cs) as Hc.
  assert (Hrows0 : responses_of s (run cs) = []).
  { destruct (responses_of s (run cs)) eqn:E; [reflexivity|].
    exfalso. apply (responses_have_session _ Hc s); [rewrite E; discriminate|exact Hfresh]. }
  assert (Hres0 : result_of s (run cs) = None).
  { destruct (result_of s (run cs)) as [row|] eqn:E; [|reflexivity].
    destruct (result_is_score _ Hc s row E) as [Hdone _]. congruence. }
  pose proof (view_created s ua ip (run cs) Hfresh) as Hv0.
  rewrite Hrows0, Hres0 in Hv0. apply view_parts in Hv0 as (H1 & H2 & H3).
  assert (Hview : view s db = (Some in_progress,
                               answer_rows s ASSESSMENT_QUESTIONS choices, None)).
  { unfold db. cbn [run_from fold_left].
    fold (run_from (step (CreateSession s ua ip) (run cs))
            (answer_calls s ASSESSMENT_QUESTIONS choices)).
    rewrite (view_answers s _ _ Hs Hoffered (fun q H => H) _ H1).
    now rewrite H2, H3. }
  apply view_parts in Hview as (V1 & V2 & V3).
  assert (Hlen : List.length (answer_rows s ASSESSMENT_QUESTIONS choices) = 12%nat).
  { unfold answer_rows. rewrite length_map, length_combine.
    rewrite <- (Forall2_length Hoffered). reflexivity. }
  assert (Hready : ready s db = true).
  { unfold ready, zod_string_min1. apply String.eqb_neq in Hs.
    now rewrite Hs, V1, V2, V3, Hlen. }
  pose proof (submitAssessment_outcome s db) as Hout. rewrite Hready in Hout.
  pose proof (answer_rows_complete choices Hoffered s) as Hcomplete.
  destruct (one_per_question_in_range _ Hcomplete) as (r0 & Hr0 & Hrange0).
  destruct (one_per_question_scoreOf _ Hcomplete) as [Hscore Hrange].
  rewrite Hscore in Hr0. injection Hr0 as <-.
  assert (Hsession : session_score s db =
            scoreOf (categoryTotals (map pair_of
              (map answer_of (answer_rows s ASSESSMENT_QUESTIONS choices))))).
  { unfold session_score. now rewrite V2. }
  do 2 eexists. split; [exact Hout|]. rewrite Hsession.
  split; [exact V2|]. split.
  { change (categoryScores (scoreOf ?x)) with x. f_equal.
    unfold answer_rows, choice_pairs. rewrite !map_map.
    apply map_ext. intros [q o]. reflexivity. }
  split; [exact Hrange0|]. split.
  - change (categoryScores (scoreOf ?x)) with x.
    pose proof (checked_in_range score_check _ all_sums_score_check Hrange) as Hcheck.
    unfold score_check in Hcheck. cbv zeta in Hcheck.
    repeat (apply andb_prop in Hcheck as [Hcheck ?]). lia.
  - pose proof (view_finalized s db) as Hfin.
    rewrite V1, V3 in Hfin. specialize (Hfin ltac:(discriminate) eq_refl).
    now apply view_parts in Hfin as (Hdone & _).
Qed.

Lemma whole_assessment_witness :
  exists r db',
    submitAssessment ASSESSMENT_QUESTIONS "t"
      (run_from (run finalized_once)
         (CreateSession "t" None None ::
          answer_calls "t" ASSESSMENT_QUESTIONS
            (map (fun q => hd (mkOption "" 0) (options q)) ASSESSMENT_QUESTIONS)))
    = (Returned r, db') /\
    categoryScores r = zero_sums /\
    session_status "t" db' = Some completed.
Proof.
  destruct (whole_assessment finalized_once "t" None None
              (map (fun q => hd (mkOption "" 0) (options q)) ASSESSMENT_QUESTIONS))
    as (r & db' & Hsubmit & _ & Hsums & _ & _ & Hdone).
  - discriminate.
  - vm_compute. reflexivity.
  - repeat constructor.
  - exists r, db'. split; [exact Hsubmit|]. split; [|exact Hdone].
    rewrite Hsums. reflexivity.
Defined.

(** ** Users *)









(** ** The interpretation sentence *)

Lemma toString_injective a b : toString a = toString b -> a = b.
Proof.
  unfold toString. intros H.
  assert (Hparse : forall z, NilZero.int_of_string (NilZero.string_of_int (Z.to_int z))
                             = Some (Z.to_int z)).
  { intros z. apply NilZero.isi; destruct z; cbn; try discriminate;
      intros E; injection E as E; now apply Unsigned.to_uint_nonnil in E. }
  pose proof (Hparse a) as Ha. rewrite H, Hparse in Ha. injection Ha as Ha.
  rewrite <- (DecimalZ.of_to a), <- (DecimalZ.of_to b). now rewrite Ha.
Qed.

Lemma append_cancel_l (p a b : string) : p ++ a = p ++ b -> a = b.
Proof.
  induction p as [|c p IH]; cbn; intros H; [exact H|].
  injection H as H. now apply IH.
Qed.

Lemma length_append (a b : string) :
  String.length (a ++ b) = (String.length a + String.length b)%nat.
Proof. induction a as [|c a IH]; cbn; [reflexivity|now rewrite IH]. Qed.

Lemma append_cancel_r (a b c : string) : a ++ c = b ++ c -> a = b.
Proof.
  intros H.
  assert (Hlen : String.length a = String.length b).
  { apply (f_equal String.length) in H. rewrite !length_append in H. lia. }
  revert b H Hlen. induction a as [|x a IH]; intros [|y b] H Hlen;
    try discriminate; [reflexivity|].
  cbn in H, Hlen. injection H as -> H. f_equal. apply IH; [exact H|lia].
Qed.

(** X21.  The interpretation sentence tells the level and the score: two
    sentences are equal only when they were made for the same level and
    the same score. *)
Theorem generateInterpretation_injective level level' score score' :
  generateInterpretation level score = generateInterpretation level' score' ->
  level = level' /\ score = score'.
Proof.
  intros H. destruct level, level'; cbn in H;
    try (repeat (injection H as H); discriminate).
  all: split; [reflexivity|]; apply toString_injective.
  all: repeat (injection H as H); now apply append_cancel_r in H.
Qed.

Lemma generateInterpretation_injective_witness :
  String.eqb (generateInterpretation low 30) (generateInterpretation moderate 31) = false.
Proof.
  apply String.eqb_neq. intros H.
  destruct (generateInterpretation_injective low moderate 30 31 H) as [Hlevel _].
  discriminate.
Defined.

(** ** The answer-set helper of the tests *)

Lemma skipn_nth_error {A} (l : list A) : forall i x,
  nth_error l i = Some x -> skipn i l = x :: skipn (S i) l.
Proof.
  induction l as [|y l IH]; intros [|i] x H; try discriminate.
  - cbn in H. now injection H as ->.
  - cbn in H. cbn [skipn]. rewrite (IH i x H). reflexivity.
Qed.

Lemma skipn_cons {A} (l : list A) : forall i x tail,
  skipn i l = x :: tail -> nth_error l i = Some x /\ skipn (S i) l = tail.
Proof.
  induction l as [|y l IH]; intros [|i] x tail H; try discriminate.
  - cbn in H. injection H as -> ->. split; reflexivity.
  - cbn in H. destruct (IH i x tail H) as [H1 H2]. split; [exact H1|exact H2].
Qed.

Lemma createAnswerSet_map_sound questions : forall index pts answers,
  (forall q, In q questions -> In q ASSESSMENT_QUESTIONS) ->
  createAnswerSet_map questions index pts = Returned answers ->
  map questionId answers = map id questions /\
  forallb drawn_from_catalog answers = true /\
  map answer_points answers = firstn (List.length questions) (skipn index pts) /\
  Forall2 has_points questions (map answer_points answers).
Proof.
  induction questions as [|q questions IH]; intros index pts answers Hin H.
  - injection H as <-. repeat split. constructor.
  - cbn [createAnswerSet_map] in H.
    destruct (nth_error pts index) as [p|] eqn:Hp; [|discriminate].
    destruct (find _ (options q)) as [o|] eqn:Ho; [|discriminate].
    destruct (createAnswerSet_map questions (S index) pts) as [rest|] eqn:Hrest;
      [|discriminate].
    injection H as <-.
    destruct (IH (S index) pts rest (fun q' H' => Hin q' (or_intror H')) Hrest)
      as (Hids & Hdrawn & Hpoints & Hhas).
    apply find_some in Ho as [Ho Hop]. apply Z.eqb_eq in Hop.
    pose proof (Hin q (or_introl eq_refl)) as Hq.
    repeat split.
    + cbn. now rewrite Hids.
    + cbn [forallb]. rewrite Hdrawn, andb_true_r.
      unfold drawn_from_catalog. cbn [questionId answerText answer_category answer_points].
      rewrite (validateAnswer_valid ASSESSMENT_QUESTIONS catalog_ids_distinct
                 catalog_labels_distinct q o Hq Ho). cbn.
      rewrite Hop, Z.eqb_refl. destruct (category q); reflexivity.
    + cbn [map answer_points List.length]. rewrite Hpoints.
      now rewrite (skipn_nth_error _ _ _ Hp).
    + cbn [map answer_points]. constructor; [|exact Hhas].
      unfold has_points. rewrite <- Hop. now apply in_map.
Qed.

Lemma createAnswerSet_map_complete questions : forall index pts,
  Forall2 has_points questions (firstn (List.length questions) (skipn index pts)) ->
  exists answers, createAnswerSet_map questions index pts = Returned answers.
Proof.
  induction questions as [|q questions IH]; intros index pts H; [cbn; eauto|].
  cbn [List.length] in H.
  destruct (skipn index pts) as [|p tail] eqn:Hskip; [inversion H|].
  cbn [firstn] in H. inversion H as [|? ? ? ? Hp Hrest]; subst.
  destruct (skipn_cons _ _ _ _ Hskip) as [Hnth Htail].
  rewrite <- Htail in Hrest. destruct (IH (S index) pts Hrest) as (rest & Hr).
  cbn [createAnswerSet_map]. rewrite Hnth.
  destruct (find (fun opt => points opt =? p) (options q)) as [o|] eqn:Ho.
  - rewrite Hr. eauto.
  - exfalso. unfold has_points in Hp. apply in_map_iff in Hp as (o & Hop & Hin).
    pose proof (proj1 (find_none_iff _ _) Ho o Hin) as Hf. cbv beta in Hf.
    rewrite Hop, Z.eqb_refl in Hf. discriminate.
Qed.

(** X22.  [createAnswerSet] returns exactly when it is given twelve values
    and every value is the points of some option of the question at its
    position.  What it returns is then an answer set with one validated
    answer per catalog question carrying the values given, so that
    [calculateRiskScore] scores it, with sums within the category maxima
    and percentages between 0 and 100. *)
Theorem createAnswerSet_complete_sets pts :
  ((exists answers, createAnswerSet pts = Returned answers) <->
   Forall2 has_points ASSESSMENT_QUESTIONS pts) /\
  (forall answers, createAnswerSet pts = Returned answers ->
     one_per_question answers /\
     map answer_points answers = pts /\
     exists r,
       calculateRiskScore ASSESSMENT_QUESTIONS answers = Returned r /\
       forall c,
         0 <= get (categoryScores r) c <= get MAX_POINTS_PER_CATEGORY c /\
         0 <= get (categoryPercentages r) c <= 100).
Proof.
  assert (Hsound : forall answers, createAnswerSet pts = Returned answers ->
            List.length pts = 12%nat /\
            map questionId answers = map id ASSESSMENT_QUESTIONS /\
            forallb drawn_from_catalog answers = true /\
            map answer_points answers = pts /\
            Forall2 has_points ASSESSMENT_QUESTIONS pts).
  { intros answers H. unfold createAnswerSet in H.
    destruct (Nat.eqb_spec (List.length pts) 12) as [Hlen|Hlen]; [|discriminate].
    cbn [negb] in H.
    destruct (createAnswerSet_map_sound _ _ _ _ (fun q Hq => Hq) H)
      as (Hids & Hdrawn & Hpoints & Hhas).
    cbn [skipn] in Hpoints. change (List.length ASSESSMENT_QUESTIONS) with 12%nat in Hpoints.
    rewrite <- Hlen, firstn_all in Hpoints.
    rewrite Hpoints in Hhas. repeat split; assumption. }
  split; [split|].
  - intros (answers & H). now apply Hsound in H.
  - intros H. pose proof (Forall2_length H) as Hlen.
    change (List.length ASSESSMENT_QUESTIONS) with 12%nat in Hlen.
    unfold createAnswerSet. rewrite <- Hlen. cbn [Nat.eqb negb].
    apply createAnswerSet_map_complete. cbn [skipn].
    change (List.length ASSESSMENT_QUESTIONS) with 12%nat.
    rewrite Hlen, firstn_all. exact H.
  - intros answers H. destruct (Hsound answers H) as (_ & Hids & Hdrawn & Hpoints & _).
    assert (Hone : one_per_question answers).
    { split; [rewrite Hids; apply Permutation_refl | exact Hdrawn]. }
    split; [exact Hone|]. split; [exact Hpoints|].
    now apply one_per_question_in_range.
Qed.

Lemma createAnswerSet_complete_sets_witness :
  createAnswerSet [1; 2; 1; 3; 3; 3; 2; 2; 2; 2; 2; 2] =
    Thrown (Error "No option with 1 points for question behavioral_1") /\
  ~ Forall2 has_points ASSESSMENT_QUESTIONS [1; 2; 1; 3; 3; 3; 2; 2; 2; 2; 2; 2].
Proof.
  split; [reflexivity|].
  intros H. apply (createAnswerSet_complete_sets [1; 2; 1; 3; 3; 3; 2; 2; 2; 2; 2; 2]) in H.
  destruct H as (answers & H). discriminate.
Defined.

(** ** Reading a question *)

(** X23.  [getQuestion] returns exactly when the identifier is not empty,
    the ordinal is between 1 and 12 and the session is stored, whatever the
    status of the session; an input outside the schema is rejected as a bad
    request and a missing session gives "Failed to retrieve question".  No
    ordinal the schema lets through is without a question, and the total
    reported is always 12. *)
Theorem getQuestion_contract s n db :
  (s <> "" -> 1 <= n <= 12 -> session_status s db <> None ->
   exists q,
     getQuestionByNumber ASSESSMENT_QUESTIONS n = Some q /\
     getQuestion ASSESSMENT_QUESTIONS s n db =
     (Returned (mkQuestionView (id q) (number q) (category q) (question q)
                  (publicOptions q) 12), db)) /\
  (s = "" \/ ~ 1 <= n <= 12 ->
   getQuestion ASSESSMENT_QUESTIONS s n db = (Thrown BadRequest, db)) /\
  (s <> "" -> 1 <= n <= 12 -> session_status s db = None ->
   getQuestion ASSESSMENT_QUESTIONS s n db =
   (Thrown (Error "Failed to retrieve question"), db)).
Proof.
  assert (Hquestion : 1 <= n <= 12 ->
            exists q, getQuestionByNumber ASSESSMENT_QUESTIONS n = Some q).
  { intros Hn.
    assert (Hcases : n = 1 \/ n = 2 \/ n = 3 \/ n = 4 \/ n = 5 \/ n = 6 \/
                     n = 7 \/ n = 8 \/ n = 9 \/ n = 10 \/ n = 11 \/ n = 12) by lia.
    repeat (destruct Hcases as [->|Hcases]; [eexists; reflexivity|]).
    subst n. eexists; reflexivity. }
  unfold getQuestion, with_input, zod_string_min1, session_status, throw.
  split; [|split].
  - intros Hs Hn Hsession. destruct (Hquestion Hn) as (q & Hq). exists q.
    split; [exact Hq|].
    apply String.eqb_neq in Hs. rewrite Hs.
    destruct (Z.leb_spec 1 n); [|lia]. destruct (Z.leb_spec n 12); [|lia].
    cbn [negb andb]. unfold try_catch, bind, getAssessmentSession.
    destruct (find _ (assessments db)); [|now contradiction Hsession].
    rewrite Hq. reflexivity.
  - intros [-> | Hn]; [reflexivity|].
    destruct (negb (String.eqb s "")); [|reflexivity]. cbn [andb].
    destruct (Z.leb_spec 1 n); [|reflexivity].
    destruct (Z.leb_spec n 12); [lia|reflexivity].
  - intros Hs Hn Hsession.
    apply String.eqb_neq in Hs. rewrite Hs.
    destruct (Z.leb_spec 1 n); [|lia]. destruct (Z.leb_spec n 12); [|lia].
    cbn [negb andb]. unfold try_catch, bind, getAssessmentSession.
    destruct (find _ (assessments db)); [discriminate|reflexivity].
Qed.

Lemma getQuestion_contract_witness :
  getQuestion ASSESSMENT_QUESTIONS "s" 13 (run answered_once) =
    (Thrown BadRequest, run answered_once) /\
  getQuestion ASSESSMENT_QUESTIONS "t" 1 (run answered_once) =
    (Thrown (Error "Failed to retrieve question"), run answered_once).
Proof.
  split.
  - apply (getQuestion_contract "s" 13 (run answered_once)). right. lia.
  - apply (getQuestion_contract "t" 1 (run answered_once)).
    + discriminate.
    + lia.
    + reflexivity.
Defined.
